(** * Gmail OAuth credential lifecycle: a shallow embedding of
      [server/app/main/services/email.py] (class [GmailService]).

    The Firestore collection [users/{uid}/gmailAccounts/{account_id}] is a
    list of documents in stream order, each document a finite map from field
    names to Python values.  The OAuth provider (google-auth, oauthlib and the
    Gmail profile endpoint) is a record of response functions; every network
    call the service makes is appended to a call log, so that "no exchange is
    attempted" and "no refresh is performed" are statements about that log. *)

From stdpp Require Import gmap strings list fin_maps.
From Stdlib Require Import ZArith Ascii String.
From Stdlib Require Strings.Byte Numbers.DecimalString.

Local Open Scope Z_scope.

(* ===================================================================== *)
(** ** Python values and strings                                          *)
(* ===================================================================== *)

(** Naive UTC datetimes, as microseconds since 1970-01-01T00:00:00. *)
Definition datetime := Z.

(** The values a Firestore field of this collection holds: [None], a [str],
    or a timestamp (the resolved [SERVER_TIMESTAMP] of [createdAt]). *)
Inductive pyval : Type :=
| VNone
| VStr (s : string)
| VTime (t : datetime).

#[global] Instance pyval_eq_dec : EqDecision pyval.
Proof. solve_decision. Defined.

(** Python truthiness: [None] and the empty string are falsy. *)
Definition str_truthy (s : string) : bool :=
  match s with EmptyString => false | String _ _ => true end.

Definition truthy (v : pyval) : bool :=
  match v with
  | VNone => false
  | VStr s => str_truthy s
  | VTime _ => true
  end.

(** An [Optional[str]] argument or attribute seen as a value. *)
Definition of_opt (o : option string) : pyval :=
  match o with Some s => VStr s | None => VNone end.

(** [a or b] *)
Definition py_or (a b : pyval) : pyval := if truthy a then a else b.

(** [c in s] for a one-character needle. *)
Fixpoint contains (c : ascii) (s : string) : bool :=
  match s with
  | EmptyString => false
  | String a r => if Ascii.eqb a c then true else contains c r
  end.

(** [s.split(c)]: every occurrence of the separator cuts. *)
Fixpoint split (c : ascii) (s : string) : list string :=
  match s with
  | EmptyString => [EmptyString]
  | String a r =>
      if Ascii.eqb a c then EmptyString :: split c r
      else match split c r with
           | h :: t => String a h :: t
           | [] => [String a EmptyString]
           end
  end.

(** The text before and after the first separator, when there is one. *)
Fixpoint cut_first (c : ascii) (s : string) : option (string * string) :=
  match s with
  | EmptyString => None
  | String a r =>
      if Ascii.eqb a c then Some (EmptyString, r)
      else match cut_first c r with
           | Some (h, t) => Some (String a h, t)
           | None => None
           end
  end.

(** [s.split(c, 1)]: at most one cut, at the first separator. *)
Definition split1 (c : ascii) (s : string) : list string :=
  match cut_first c s with
  | Some (h, t) => [h; t]
  | None => [s]
  end.

Definition colon : ascii := ":"%char.
Definition at_sign : ascii := "@"%char.

(** [f"{uid}:{account_id}"] *)
Definition encode_state (uid account_id : string) : string :=
  uid +:+ ":" +:+ account_id.

(** [email_address.split("@")[0]] *)
Definition local_part (email : string) : string :=
  match split at_sign email with
  | h :: _ => h
  | [] => EmptyString
  end.

(* ===================================================================== *)
(** ** [datetime.isoformat] and [str(datetime)]                           *)
(* ===================================================================== *)

Definition digit (n : Z) : ascii := ascii_of_nat (48 + Z.to_nat (n mod 10)).

(** The [w] lowest decimal digits of [n] (["%0wd"] for [0 <= n < 10^w]). *)
Fixpoint dec (w : nat) (n : Z) : string :=
  match w with
  | O => EmptyString
  | S w' => dec w' (n / 10) +:+ String (digit n) EmptyString
  end.

(** Proleptic Gregorian date of a day count since 1970-01-01. *)
Definition civil_of_days (z : Z) : Z * Z * Z :=
  let z := z + 719468 in
  let era := z / 146097 in
  let doe := z - era * 146097 in
  let yoe := (doe - doe / 1460 + doe / 36524 - doe / 146096) / 365 in
  let doy := doe - (365 * yoe + yoe / 4 - yoe / 100) in
  let mp := (5 * doy + 2) / 153 in
  let d := doy - (153 * mp + 2) / 5 + 1 in
  let m := if mp <? 10 then mp + 3 else mp - 9 in
  let y := yoe + era * 400 in
  (if m <=? 2 then y + 1 else y, m, d).

Definition usec_per_day : Z := 86400000000.

Definition date_part (t : datetime) : string :=
  let '(y, m, d) := civil_of_days (t / usec_per_day) in
  dec 4 y +:+ "-" +:+ dec 2 m +:+ "-" +:+ dec 2 d.

Definition time_part (t : datetime) : string :=
  let us := t mod usec_per_day in
  let s := us / 1000000 in
  let frac := us mod 1000000 in
  dec 2 (s / 3600) +:+ ":" +:+ dec 2 (s / 60 mod 60) +:+ ":" +:+ dec 2 (s mod 60)
  +:+ (if frac =? 0 then EmptyString else "." +:+ dec 6 frac).

Definition isoformat_sep (sep : string) (t : datetime) : string :=
  date_part t +:+ sep +:+ time_part t.

(** [t.isoformat()] *)
Definition isoformat (t : datetime) : string := isoformat_sep "T" t.

(** [str(t)] for a datetime is [t.isoformat(sep=" ")]. *)
Definition str_datetime (t : datetime) : string := isoformat_sep " " t.

(** [creds.expiry.isoformat() if getattr(creds, "expiry", None) else None] *)
Definition expiry_iso (e : option datetime) : pyval :=
  match e with Some t => VStr (isoformat t) | None => VNone end.

(** [str(creds.expiry)]; [str(None)] is the four letters [None]. *)
Definition expiry_str (e : option datetime) : pyval :=
  match e with Some t => VStr (str_datetime t) | None => VStr "None" end.

(* ===================================================================== *)
(** ** The document store                                                 *)
(* ===================================================================== *)

(** A document reference [users/{uid}/gmailAccounts/{account_id}]. *)
Definition path : Type := string * string.

Definition owner_of (k : path) : string := fst k.
Definition id_of (k : path) : string := snd k.

(** Document data, [snapshot.to_dict()]. *)
Abbreviation doc := (gmap string pyval).

(** The collection group [gmailAccounts], in the order [stream()] yields it. *)
Abbreviation store := (list (path * doc)).

(** [doc_ref.get()]: the data of an existing document. *)
Fixpoint snapshot (k : path) (st : store) : option doc :=
  match st with
  | [] => None
  | (k', d) :: r => if decide (k' = k) then Some d else snapshot k r
  end.

(** [snap.to_dict() or {}] *)
Definition to_dict (snap : option doc) : doc := default ∅ snap.

(** Document names order the stream: owner first, then document id. *)
Definition path_ltb (a b : path) : bool :=
  String.ltb (owner_of a) (owner_of b)
  || (String.eqb (owner_of a) (owner_of b) && String.ltb (id_of a) (id_of b)).

(** A new document takes its place by name. *)
Fixpoint place (k : path) (d : doc) (st : store) : store :=
  match st with
  | [] => [(k, d)]
  | e :: r => if path_ltb k (fst e) then (k, d) :: e :: r else e :: place k d r
  end.

(** The written fields win over the stored ones; the others stay. *)
Fixpoint merge_at (k : path) (fields : doc) (st : store) : store :=
  match st with
  | [] => []
  | (k', d) :: r =>
      if decide (k' = k) then (k', fields ∪ d) :: r
      else (k', d) :: merge_at k fields r
  end.

(** [doc_ref.set(fields, merge=True)] *)
Definition set_merge (k : path) (fields : doc) (st : store) : store :=
  match snapshot k st with
  | Some _ => merge_at k fields st
  | None => place k fields st
  end.

(** [doc_ref.delete()] *)
Definition delete_doc (k : path) (st : store) : store :=
  filter (λ e, fst e ≠ k) st.

(** [users/{uid}/gmailAccounts .limit(1).stream()], as a list. *)
Fixpoint limit1 (uid : string) (st : store) : list (path * doc) :=
  match st with
  | [] => []
  | e :: r => if decide (owner_of (fst e) = uid) then [e] else limit1 uid r
  end.

(** The first document of the collection group whose id is [account_id]. *)
Fixpoint scan (account_id : string) (st : store) : option path :=
  match st with
  | [] => None
  | e :: r => if decide (id_of (fst e) = account_id) then Some (fst e)
              else scan account_id r
  end.

(* ===================================================================== *)
(** ** Credentials and the provider                                       *)
(* ===================================================================== *)

(** [google.oauth2.credentials.Credentials], the attributes the service
    reads.  The constructor's [expiry] argument defaults to [None]. *)
Record Credentials : Type := mkCredentials {
  token : pyval;
  refresh_token : pyval;
  expiry : option datetime
}.

(** google-auth's [REFRESH_THRESHOLD], 3 min 45 s. *)
Definition REFRESH_THRESHOLD : Z := 225000000.

(** [creds.expired]: without an expiry a credential never expires. *)
Definition expired (now : datetime) (c : Credentials) : bool :=
  match expiry c with
  | None => false
  | Some e => e - REFRESH_THRESHOLD <=? now
  end.

(** [creds.valid]: [token is not None and not expired]. *)
Definition valid (now : datetime) (c : Credentials) : bool :=
  match token c with
  | VNone => false
  | _ => negb (expired now c)
  end.

(** Python exceptions that cross the service. *)
Inductive exn : Type :=
| ValueError (msg : string)
| ProviderError (msg : string)
| NotFound (msg : string).

(** [str(e)] *)
Definition exn_str (e : exn) : string :=
  match e with
  | ValueError m => m
  | ProviderError m => m
  | NotFound m => m
  end.

Inductive outcome (A : Type) : Type :=
| Return (a : A)
| Raise (e : exn).
Arguments Return {A} a.
Arguments Raise {A} e.

(** The provider's answers.  [authorization_url] is the URL the library
    builds locally for a state within one call (the library may salt it per
    call, so the URLs of two calls are never compared); the other three are
    the outcomes of [flow.fetch_token], [creds.refresh] and
    [getProfile(...).execute()], each taken as a whole, and can raise. *)
Record Provider : Type := mkProvider {
  authorization_url : string → string;
  fetch_token : string → string → outcome Credentials;
  refresh_grant : pyval → outcome (string * option datetime);
  get_profile : Credentials → outcome (option string)
}.

(** Calls made to the provider, one entry per library call: what the
    transport does inside one of them is not itemised. *)
Inductive call : Type :=
| FetchToken (code state : string)
| RefreshGrant (rt : pyval)
| GetProfile (c : Credentials).

(** [googleapiclient.discovery.build("gmail", "v1", credentials=creds)] *)
Record Service : Type := build { credentials : Credentials }.

(* ===================================================================== *)
(** ** State, exceptions and sequencing                                   *)
(* ===================================================================== *)

Record world : Type := mkWorld {
  docs : store;
  calls : list call
}.

Definition M (A : Type) : Type := world → outcome A * world.

Definition ret {A} (a : A) : M A := λ w, (Return a, w).
Definition raise {A} (e : exn) : M A := λ w, (Raise e, w).

Definition bind {A B} (m : M A) (f : A → M B) : M B :=
  λ w, match m w with
       | (Return a, w') => f a w'
       | (Raise e, w') => (Raise e, w')
       end.

(** [try: body except Exception as e: handler(e)] *)
Definition try_except {A} (body : M A) (handler : exn → M A) : M A :=
  λ w, match body w with
       | (Return a, w') => (Return a, w')
       | (Raise e, w') => handler e w'
       end.

Notation "'let*' x ':=' m 'in' k" := (bind m (λ x, k))
  (at level 10, x name, m at level 100, k at level 200).
Notation "'let*' ( x , y ) ':=' m 'in' k" := (bind m (λ '(x, y), k))
  (at level 10, x name, y name, m at level 100, k at level 200).

Definition get_docs : M store := λ w, (Return (docs w), w).

Definition put_docs (st : store) : M unit :=
  λ w, (Return tt, mkWorld st (calls w)).

Definition log_call (c : call) : M unit :=
  λ w, (Return tt, mkWorld (docs w) (calls w ++ [c])).

Definition lift {A} (o : outcome A) : M A := λ w, (o, w).

(** [doc_ref.get()] *)
Definition doc_get (k : path) : M (option doc) :=
  let* st := get_docs in ret (snapshot k st).

(** [doc_ref.set(fields, merge=True)] *)
Definition doc_set_merge (k : path) (fields : doc) : M unit :=
  let* st := get_docs in put_docs (set_merge k fields st).

(** [doc_ref.update(fields)]: raises when the document does not exist. *)
Definition doc_update (k : path) (fields : doc) : M unit :=
  let* st := get_docs in
  match snapshot k st with
  | Some _ => put_docs (merge_at k fields st)
  | None => raise (NotFound "No document to update")
  end.

(** [doc_ref.delete()] *)
Definition doc_delete (k : path) : M unit :=
  let* st := get_docs in put_docs (delete_doc k st).

(** [data.get(key)] *)
Definition py_get (d : doc) (key : string) : pyval := default VNone (d !! key).

(** An [Optional[str]] argument under [if account_id:]. *)
Definition given (o : option string) : option string :=
  match o with
  | Some (String _ _ as a) => Some a
  | _ => None
  end.

(** [a, b = parts] *)
Definition unpack2 (parts : list string) : M (string * string) :=
  match parts with
  | [a; b] => ret (a, b)
  | [] => raise (ValueError "not enough values to unpack (expected 2, got 0)")
  | [_] => raise (ValueError "not enough values to unpack (expected 2, got 1)")
  | _ => raise (ValueError "too many values to unpack (expected 2)")
  end.

(** The dictionaries [{"success": ..., "error": ...}] and
    [{"url": ..., "accountId": ...}] the service returns. *)
Record Result : Type := mkResult { success : bool; error : option string }.
Record AuthUrl : Type := mkAuthUrl { url : string; accountId : string }.

(** The fields written when a connection completes; the two completion
    paths differ in how they render the expiry. *)
Definition connection_fields (rt : pyval) (creds : Credentials)
    (expiry_field : pyval) (email_address : option string) : doc :=
  {[ "refresh_token" := rt;
     "access_token" := token creds;
     "expiry" := expiry_field;
     "emailAddress" := of_opt email_address;
     "name" := VStr (match given email_address with
                     | Some e => local_part e
                     | None => EmptyString
                     end) ]}.

(** The fields written back after a refresh. *)
Definition refreshed_fields (creds : Credentials) : doc :=
  {[ "access_token" := token creds;
     "expiry" := expiry_iso (expiry creds) ]}.

(* ===================================================================== *)
(** ** [class GmailService]                                               *)
(* ===================================================================== *)

Section GmailService.
(** The provider's behaviour, the clock ([utcnow()] and the server
    timestamp), and [self.uid]. *)
Variable P : Provider.
Variable now : datetime.
Variable uid : string.

(** Reads of the collection are functions of the store. *)
Definition _get_existing_account_id (st : store) : option string :=
  match limit1 uid st with
  | e :: _ => Some (id_of (fst e))
  | [] => None
  end.

Definition _ensure_account_doc (account_id : string) : M unit :=
  doc_set_merge (uid, account_id) {[ "createdAt" := VTime now ]}.

(** [uuid] is the value [str(uuid4())] takes if it is drawn. *)
Definition get_auth_url (uuid : string) (account_id : option string)
    : M AuthUrl :=
  let* account_id :=
    match given account_id with
    | Some a => let* _ := _ensure_account_doc a in ret a
    | None =>
        let* st := get_docs in
        let existing_id := _get_existing_account_id st in
        match given existing_id with
        | Some a => ret a
        | None => let* _ := _ensure_account_doc uuid in ret uuid
        end
    end in
  let state := encode_state uid account_id in
  ret (mkAuthUrl (authorization_url P state) account_id).

(** Returns [(doc_ref, owner_uid)], or [None] for [(None, None)]. *)
Definition _doc_ref_for_account (account_id : string) (st : store)
    : option (path * string) :=
  let direct :=
    if str_truthy uid then
      match snapshot (uid, account_id) st with
      | Some _ => Some ((uid, account_id), uid)
      | None => None
      end
    else None in
  match direct with
  | Some r => Some r
  | None =>
      match scan account_id st with
      | Some k => Some (k, owner_of k)
      | None => None
      end
  end.

(** [creds.refresh(Request())]: without a refresh token google-auth raises
    before any request; otherwise the token and the expiry are replaced by
    the provider's answer. *)
Definition refresh (creds : Credentials) : M Credentials :=
  match refresh_token creds with
  | VNone =>
      raise (ProviderError
               "The credentials do not contain the necessary fields need to refresh the access token. You must specify refresh_token, token_uri, client_id, and client_secret.")
  | rt =>
      let* _ := log_call (RefreshGrant rt) in
      let* r := lift (refresh_grant P rt) in
      ret (mkCredentials (VStr (fst r)) rt (snd r))
  end.

Definition get_credentials (account_id : option string)
    : M (option Credentials) :=
  let* st := get_docs in
  let doc_ref :=
    match given account_id with
    | Some a => option_map fst (_doc_ref_for_account a st)
    | None =>
        if negb (str_truthy uid) then None
        else match limit1 uid st with
             | e :: _ => Some (fst e)
             | [] => None
             end
    end in
  match doc_ref with
  | None => ret None
  | Some doc_ref =>
      let* snap := doc_get doc_ref in
      let data := to_dict snap in
      match data !! "refresh_token" with
      | None => ret None
      | Some rt =>
          let creds := mkCredentials (py_get data "access_token") rt None in
          if negb (valid now creds) || expired now creds then
            let* creds := refresh creds in
            let* _ := doc_update doc_ref (refreshed_fields creds) in
            ret (Some creds)
          else ret (Some creds)
      end
  end.

Definition save_refresh_token (code state : string) : M Result :=
  let* (uid', account_id) := unpack2 (split colon state) in
  let* _ := log_call (FetchToken code state) in
  let* creds := lift (fetch_token P code state) in
  let doc_ref := (uid', account_id) in
  let* snap := doc_get doc_ref in
  let existing := to_dict snap in
  let rt := py_or (refresh_token creds) (py_get existing "refresh_token") in
  if negb (truthy rt) then
    ret (mkResult false (Some "No refresh_token returned"))
  else
    let* _ := log_call (GetProfile creds) in
    let* email_address := lift (get_profile P creds) in
    let* _ := doc_set_merge doc_ref
                (connection_fields rt creds (expiry_iso (expiry creds))
                   email_address) in
    ret (mkResult true None).

Definition get_service (account_id : string) : M Service :=
  let* st := get_docs in
  match _doc_ref_for_account account_id st with
  | None => raise (ValueError "Gmail account not connected")
  | Some (doc_ref, _) =>
      let* snap := doc_get doc_ref in
      let data := to_dict snap in
      match data !! "refresh_token" with
      | None => raise (ValueError "Gmail account not connected")
      | Some rt =>
          let creds := mkCredentials (py_get data "access_token") rt None in
          if negb (valid now creds) || expired now creds then
            let* creds := refresh creds in
            let* _ := doc_update doc_ref (refreshed_fields creds) in
            ret (build creds)
          else ret (build creds)
      end
  end.

(** Returns the pair [(account_id, error)]. *)
Definition handle_callback (state code : string)
    : M (option string * option string) :=
  try_except
    (if negb (contains colon state) then
       ret (None, Some "Invalid state format: expected 'uid:account_id'")
     else
       let* (uid', account_id) := unpack2 (split1 colon state) in
       let* _ := log_call (FetchToken code state) in
       let* creds := lift (fetch_token P code state) in
       if negb (truthy (refresh_token creds)) then
         ret (None, Some "No refresh_token returned")
       else
         let doc_ref := (uid', account_id) in
         let* snap := doc_get doc_ref in
         let existing := to_dict snap in
         let rt := py_or (refresh_token creds)
                     (py_get existing "refresh_token") in
         if negb (truthy rt) then
           ret (None, Some "No refresh_token returned")
         else
           let* _ := log_call (GetProfile creds) in
           let* email_address := lift (get_profile P creds) in
           let* _ := doc_set_merge doc_ref
                       (connection_fields rt creds
                          (expiry_str (expiry creds)) email_address) in
           ret (Some account_id, None))
    (λ e, ret (None, Some ("Error in handle_callback: " +:+ exn_str e))).

Definition disconnect_account (account_id : string) (admin_mode : bool)
    : M Result :=
  try_except
    (let* st := get_docs in
     match _doc_ref_for_account account_id st with
     | None => ret (mkResult false (Some "Gmail account not found"))
     | Some (doc_ref, owner_uid) =>
         if negb admin_mode && negb (String.eqb owner_uid uid) then
           ret (mkResult false
                  (Some "You do not have permission to disconnect this account"))
         else
           let* _ := doc_delete doc_ref in
           ret (mkResult true None)
     end)
    (λ e, ret (mkResult false
                 (Some ("Failed to disconnect account: " +:+ exn_str e)))).

End GmailService.

(* ===================================================================== *)
(** ** Vocabulary of the specification                                    *)
(* ===================================================================== *)

(** The error kinds of the specification are the messages the service
    returns. *)
Definition MalformedState : string :=
  "Invalid state format: expected 'uid:account_id'".
Definition NoRefreshToken : string := "No refresh_token returned".
Definition PermissionDenied : string :=
  "You do not have permission to disconnect this account".
Definition NotConnected : string := "Gmail account not connected".

(** [resolveForOwner(owner_id, account_id)]: the direct lookup under the
    owner. *)
Definition resolveForOwner (owner_id account_id : string) (st : store)
    : option doc :=
  snapshot (owner_id, account_id) st.

(** The record [get_credentials] loads (source lines 128 to 141). *)
Definition credential_ref (uid : string) (account_id : option string)
    (st : store) : option path :=
  match given account_id with
  | Some a => option_map fst (_doc_ref_for_account uid a st)
  | None =>
      if negb (str_truthy uid) then None
      else match limit1 uid st with
           | e :: _ => Some (fst e)
           | [] => None
           end
  end.

(** The credential object both [get_credentials] and [get_service] build
    from the stored data: no expiry is handed to the constructor. *)
Definition loaded_credentials (d : doc) (rt : pyval) : Credentials :=
  mkCredentials (py_get d "access_token") rt None.

(** The refresh-and-persist branch. *)
Definition refresh_and_persist (P : Provider) (k : path) (c : Credentials)
    : M Credentials :=
  let* c' := refresh P c in
  let* _ := doc_update k (refreshed_fields c') in
  ret c'.

(** The stored expiry, read back as an absolute time: the field holds the
    rendering of some instant [e], in either of the two formats the service
    writes. *)
Definition stored_expiry (d : doc) (e : datetime) : Prop :=
  py_get d "expiry" = VStr (isoformat e)
  ∨ py_get d "expiry" = VStr (str_datetime e).

(** The stored expiry is in the future at [now]. *)
Definition expiry_in_future (now : datetime) (d : doc) : Prop :=
  ∃ e, stored_expiry d e ∧ now < e.

(** A refresh request went out between two worlds. *)
Definition refreshed (w w' : world) : Prop :=
  ∃ rt, calls w' = calls w ++ [RefreshGrant rt].

(** The credentials an exchange yields, when it does not raise. *)
Definition fetch_token_result (P : Provider) (code state : string)
    : option Credentials :=
  match fetch_token P code state with
  | Return c => Some c
  | Raise _ => None
  end.

(** The state is one owner and one account id around a single delimiter. *)
Definition one_pair (state : string) : Prop :=
  ∃ a b, split colon state = [a; b].

(** Success of the two completion paths: the [success] entry of the one, an
    account id and no error from the other. *)
Definition saved (r : outcome Result) : bool :=
  match r with
  | Return x => success x
  | Raise _ => false
  end.

Definition completed (r : outcome (option string * option string)) : bool :=
  match r with
  | Return (Some _, None) => true
  | _ => false
  end.

(** A step from [st] to [st'] keeps field [f]: wherever a document held
    a value for [f], the document is still there with the same value. *)
Definition keeps_field (f : string) (st st' : store) : Prop :=
  ∀ k d v, snapshot k st = Some d → d !! f = Some v →
           ∃ d', snapshot k st' = Some d' ∧ d' !! f = Some v.

(** Every document id of the store is a non-empty string, as Firestore
    requires. *)
Definition ids_nonempty (st : store) : Prop :=
  Forall (λ e, str_truthy (id_of (fst e)) = true) st.

(* ===================================================================== *)
(** ** Sample data                                                        *)
(* ===================================================================== *)

Module Sample.

(** 2024-02-29T12:34:56 and one hour later. *)
Definition t0 : datetime := 1709210096000000.
Definition t1 : datetime := 1709213696000000.
(** 2020-01-01T00:00:00 *)
Definition t_old : datetime := 1577836800000000.

(** A provider that grants everything. *)
Definition granting : Provider :=
  mkProvider (λ s, "https://accounts.example/auth?state=" +:+ s)
    (λ _ _, Return (mkCredentials (VStr "a1") (VStr "r1") (Some t1)))
    (λ _, Return ("a2"%string, Some t1))
    (λ _, Return (Some "x@y.com"%string)).

(** A provider whose exchange omits the refresh token (re-consent). *)
Definition reconsent : Provider :=
  mkProvider (λ s, "https://accounts.example/auth?state=" +:+ s)
    (λ _ _, Return (mkCredentials (VStr "a1") VNone (Some t1)))
    (λ _, Return ("a2"%string, Some t1))
    (λ _, Return (Some "x@y.com"%string)).

Definition placeholder : doc := {[ "createdAt" := VTime t_old ]}.

Definition connected : doc :=
  {[ "createdAt" := VTime t_old;
     "refresh_token" := VStr "r0";
     "access_token" := VStr "a0";
     "expiry" := VStr (isoformat t1) ]}.

(** Connected, with an access token whose stored expiry has passed. *)
Definition stale : doc :=
  {[ "createdAt" := VTime t_old;
     "refresh_token" := VStr "r0";
     "access_token" := VStr "a0";
     "expiry" := VStr (isoformat t_old) ]}.

(** Connected, with an access token and no stored expiry. *)
Definition undated : doc :=
  {[ "createdAt" := VTime t_old;
     "refresh_token" := VStr "r0";
     "access_token" := VStr "a0" ]}.

(** Connected, with no access token. *)
Definition tokenless : doc :=
  {[ "createdAt" := VTime t_old; "refresh_token" := VStr "r0" ]}.

Definition world_of (st : store) : world := mkWorld st [].

(** The same account id under two owners. *)
Definition shared_id : store :=
  [(("u2", "a1"), connected); (("u3", "a1"), placeholder);
   (("u3", "a2"), tokenless)]%string.

End Sample.

(* ===================================================================== *)
(** ** More sample data                                                   *)
(* ===================================================================== *)

Module Cases.

(** A provider that has revoked every refresh token. *)
Definition revoked : Provider :=
  mkProvider (λ s, "https://accounts.example/auth?state=" +:+ s)
    (λ _ _, Raise (ProviderError "invalid_grant"))
    (λ _, Raise (ProviderError "invalid_grant: Token has been expired or revoked."))
    (λ _, Raise (ProviderError "401")).

(** A provider that grants the exchange and then fails the profile
    request. *)
Definition unreachable : Provider :=
  mkProvider (λ s, "https://accounts.example/auth?state=" +:+ s)
    (λ _ _, Return (mkCredentials (VStr "a1") (VStr "r1") (Some Sample.t1)))
    (λ _, Return ("a2"%string, Some Sample.t1))
    (λ _, Raise (ProviderError "profile unavailable")).

End Cases.

(* ===================================================================== *)
(** ** [list_all_accounts]                                                *)
(* ===================================================================== *)

(** [t.isoformat()] for the timezone-aware UTC datetimes Firestore hands
    back for timestamp fields. *)
Definition isoformat_utc (t : datetime) : string := isoformat t +:+ "+00:00".

(** [created_at.isoformat() if hasattr(created_at, "isoformat")
     else (str(created_at) if created_at else None)] *)
Definition created_at_text (created_at : pyval) : pyval :=
  match created_at with
  | VTime t => VStr (isoformat_utc t)
  | VStr s => if str_truthy s then VStr s else VNone
  | VNone => VNone
  end.

(** The dictionary built for one document of the collection group. *)
Definition account_obj (e : path * doc) : doc :=
  let data := snd e in
  {[ "uid" := VStr (owner_of (fst e));
     "accountId" := VStr (id_of (fst e));
     "emailAddress" := py_get data "emailAddress";
     "name" := py_get data "name";
     "createdAt" := created_at_text (py_get data "createdAt") ]}.

(** The method reads [self.uid] only to print it. *)
Definition list_all_accounts : M (list doc) :=
  let* st := get_docs in
  ret (map account_obj st).

(* ===================================================================== *)
(** ** The resources of [apis/email.py]                                   *)
(* ===================================================================== *)

(** The decoded token a resource method receives as [auth_token_data]. *)
Abbreviation token_data := (gmap string string).

(** What a resource method returns: a JSON body or a page, and a status. *)
Inductive payload : Type :=
| ErrorBody (msg : string)
| ResultBody (r : Result)
| AuthUrlBody (a : AuthUrl)
| AccountsBody (accounts : list doc)
| HtmlBody (text : string).

Definition response : Type := payload * Z.

(** [auth_token_data["uid"]], unless
    [not auth_token_data or "uid" not in auth_token_data]. *)
Definition token_uid (auth_token_data : option token_data) : option string :=
  match auth_token_data with
  | Some d => d !! "uid"
  | None => None
  end.

(** [str(account_id)] for the [Optional[str]] the callback answers. *)
Definition str_opt (o : option string) : string :=
  match o with Some s => s | None => "None" end.

(** The page of the callback, [html % (account_id)]. *)
Definition connected_page (account_id : option string) : string :=
  "
            <html><body>
              <script>
                window.opener.postMessage({
                    type: 'GMAIL_CONNECTED',
                    accountId: '" +:+ str_opt account_id +:+ "'
                }, '*');
                window.close();
              </script>
              <p>Successfully connected Gmail account! You can close this window.</p>
            </body></html>
            ".

(** [GmailAccounts.get] *)
Definition GmailAccounts_get : M response :=
  let* accounts := list_all_accounts in
  ret (AccountsBody accounts, 200).

Section Resources.
Variable P : Provider.
Variable now : datetime.

(** [GmailAuthUrl.get]; [uuid] as in [get_auth_url]. *)
Definition GmailAuthUrl_get (uuid : string)
    (auth_token_data : option token_data) : M response :=
  try_except
    (match token_uid auth_token_data with
     | None => ret (ErrorBody "Missing uid in auth_token_data", 400)
     | Some uid =>
         let* a := get_auth_url P now uid uuid None in
         ret (AuthUrlBody a, 200)
     end)
    (λ ex, ret (ErrorBody (exn_str ex), 500)).

(** The common body of the two disconnect resources. *)
Definition disconnect_post (admin_mode : bool) (account_id : string)
    (auth_token_data : option token_data) : M response :=
  try_except
    (match token_uid auth_token_data with
     | None => ret (ErrorBody "Missing uid in auth token", 400)
     | Some uid =>
         let* result := disconnect_account uid account_id admin_mode in
         if success result then ret (ResultBody result, 200)
         else ret (ErrorBody (default "Failed to disconnect account"
                                (error result)), 400)
     end)
    (λ e, ret (ErrorBody (exn_str e), 500)).

(** [GmailDisconnect.post] *)
Definition GmailDisconnect_post := disconnect_post false.

(** [AdminGmailDisconnect.post] *)
Definition AdminGmailDisconnect_post := disconnect_post true.

(** [GmailCallback.get]; [code] and [state] are the query parameters. *)
Definition GmailCallback_get (code state : option string) : M response :=
  try_except
    (match given code, given state with
     | Some code, Some state =>
         let* parsed :=
           try_except
             (let* p := unpack2 (split1 colon state) in ret (Some p))
             (λ e, match e with
                   | ValueError _ => ret None
                   | _ => raise e
                   end) in
         match parsed with
         | None => ret (ErrorBody "Invalid state format", 400)
         | Some _ =>
             let* (account_id, error) := handle_callback P state code in
             match given error with
             | Some msg => ret (ErrorBody msg, 400)
             | None => ret (HtmlBody (connected_page account_id), 200)
             end
         end
     | _, _ => ret (ErrorBody "Missing code or state parameter", 400)
     end)
    (λ e, ret (ErrorBody ("Internal server error: " +:+ exn_str e), 500)).

End Resources.

(* ===================================================================== *)
(** ** [services/users.py]: permissions and profile defaults              *)
(* ===================================================================== *)

(** [User.permissions]: flags by permission key. *)
Abbreviation perms := (gmap string bool).

(** [permission_keys] of [set_permissions]. *)
Definition permission_keys : list string :=
  [ "admin_flag";
    "campaigns_admin_access"; "campaigns_view_access";
    "discovery_access";
    "users_admin_access";
    "lists_admin_access"; "lists_view_access";
    "projects_admin_access"; "projects_dash_access";
    "operations_admin_access"; "operations_dash_access";
    "zoho_admin_access"; "zoho_dash_access";
    "scraping_admin_access"; "scraping_dash_access";
    "tables_admin_access";
    "followers_admin_access";
    "tagging_admin_access"; "tagging_access";
    "vqs_access";
    "organisation_admin_access";
    "admin_sales_access"; "sales_dash_access";
    "email_access"; "payment_access" ]%string.

(** The chain of [if self.permissions.get(a, False) == True:
    self.permissions.update({v: True})], in source order. *)
Definition implications : list (string * string) :=
  [ ("lists_admin_access", "lists_view_access");
    ("campaigns_admin_access", "campaigns_view_access");
    ("projects_admin_access", "projects_dash_access");
    ("operations_admin_access", "operations_dash_access");
    ("scraping_admin_access", "scraping_dash_access");
    ("tagging_admin_access", "tagging_access");
    ("zoho_admin_access", "zoho_dash_access");
    ("admin_sales_access", "sales_dash_access") ]%string.

(** [p.get(key, False)], which on flags is also [p.get(key, False) == True]. *)
Definition granted (p : perms) (key : string) : bool := default false (p !! key).

(** [p.update({key: True for key in keys})] *)
Definition grant_all (keys : list string) (p : perms) : perms :=
  foldl (λ acc key, <[key := true]> acc) p keys.

(** One step of the chain, and the chain. *)
Definition imply (acc : perms) (av : string * string) : perms :=
  if granted acc (fst av) then <[snd av := true]> acc else acc.

Definition apply_implications (imps : list (string * string)) (p : perms)
    : perms :=
  foldl imply p imps.

(** [User.set_permissions], as the value [self.permissions] has afterwards;
    the argument is the attribute before, [None] when the object has none.
    An empty dictionary is falsy and is left alone. *)
Definition set_permissions (attribute : option perms) : perms :=
  let p := default {[ "admin_flag" := false ]} attribute in
  if decide (p = ∅) then p
  else if granted p "admin_flag" then grant_all permission_keys p
  else apply_implications implications p.

(** No permission a rule grants is the premise of a rule. *)
Definition sources_untouched (imps : list (string * string)) : Prop :=
  Forall (λ av, Forall (λ av', snd av ≠ fst av') imps) imps.

(** Which rules fire for [k], read on the permissions before the chain. *)
Definition implied (imps : list (string * string)) (p : perms) (k : string)
    : bool :=
  existsb (λ av, bool_decide (snd av = k) && granted p (fst av)) imps.

(** Profile attributes of a [User] object. *)
Inductive attr : Type :=
| AStr (s : string)
| ABool (b : bool)
| ANum (n : Z)
| ABilling (total_credits credits_used : Z).

(** [default_fields] of [_set_default_profile_fields], in source order. *)
Definition default_fields : list (string * attr) :=
  [ ("accountCategory", AStr "");
    ("accountType", AStr "");
    ("phoneNumber", AStr "");
    ("source", AStr "");
    ("emailVerified", ABool false);
    ("username", AStr "");
    ("displayName", AStr "");
    ("meteredBilling", ABilling 0 0) ]%string.

(** [if not hasattr(self, field): setattr(self, field, default_value)] *)
Definition set_default (self : gmap string attr) (fd : string * attr)
    : gmap string attr :=
  match self !! fst fd with
  | Some _ => self
  | None => <[fst fd := snd fd]> self
  end.

(** [User._set_default_profile_fields] on the object's [__dict__]. *)
Definition _set_default_profile_fields (self : gmap string attr)
    : gmap string attr :=
  foldl set_default self default_fields.

(* ===================================================================== *)
(** ** [utils/decorators.py]: [require_permission]                        *)
(* ===================================================================== *)

(** What leaves the decorated method: a refusal with its status, the
    answer of the wrapped method, or an exception. *)
Inductive gated (A : Type) : Type :=
| Refused (message : string) (status : Z)
| Passed (a : A)
| TypeError (msg : string)
| AttributeError (msg : string)
| Propagated (e : exn).
Arguments Refused {A} message status.
Arguments Passed {A} a.
Arguments TypeError {A} msg.
Arguments AttributeError {A} msg.
Arguments Propagated {A} e.

Section RequirePermission.
(** [auth.verify_id_token], and the [permissions] attribute a [User] has
    once Firebase Auth and the user document are loaded ([None] when the
    document holds none; a failure of the load is raised). *)
Variable verify_id_token : string → outcome token_data.
Variable stored_permissions : string → outcome (option perms).
Context {A : Type}.

(** [firebase.verify_token_and_get_doc]: on failure it executes
    [raise {'message': 'jwt token is invalid'}], and raising a dictionary is
    a [TypeError]. *)
Definition verify_token_and_get_doc (jwt_token : string) : gated token_data :=
  match verify_id_token jwt_token with
  | Return decoded_token => Passed decoded_token
  | Raise _ => TypeError "exceptions must derive from BaseException"
  end.

(** The wrapped method receives the token payload and the loaded user's
    permissions ([None] for a user object without that attribute, which is
    what [User] builds for an empty id).  The request data handed on under
    [expects_request_data] plays no part in the gate and is left out. *)
Definition require_permission (permission_key : string)
    (auth_header : option string) (f : token_data → option perms → A)
    : gated A :=
  match given auth_header with
  | None => Refused "Authorization header missing" 401
  | Some auth_header =>
      match verify_token_and_get_doc auth_header with
      | Passed payload =>
          match payload !! "user_id" with
          | None => Refused "Invalid token or user_id missing from token" 401
          | Some user_id =>
              if negb (str_truthy user_id) then
                if decide (permission_key = "self_profile_access") then
                  Passed (f payload None)
                else
                  AttributeError "'User' object has no attribute 'permissions'"
              else
                match stored_permissions user_id with
                | Raise e => Propagated e
                | Return attribute =>
                    let permissions := set_permissions attribute in
                    if decide (permission_key = "self_profile_access") then
                      Passed (f payload (Some permissions))
                    else if granted permissions permission_key then
                      Passed (f payload (Some permissions))
                    else Refused "You do not have access.!" 403
                end
          end
      | Refused m st => Refused m st
      | TypeError m => TypeError m
      | AttributeError m => AttributeError m
      | Propagated e => Propagated e
      end
  end.

End RequirePermission.

(** The default a name has in a list of defaults: the first entry for it. *)
Fixpoint lookup_default (l : list (string * attr)) (k : string) : option attr :=
  match l with
  | [] => None
  | fd :: r => if decide (fst fd = k) then Some (snd fd) else lookup_default r k
  end.

(* ===================================================================== *)
(** ** [services/users.py]: the page of [get_users_with_pagination]       *)
(* ===================================================================== *)

(** A slice bound [i] on a list of length [n]: negative bounds count from
    the end, and every bound is clipped to the list. *)
Definition slice_bound (n i : Z) : Z :=
  if i <? 0 then Z.max (i + n) 0 else Z.min i n.

(** [l[start:stop]] *)
Definition py_slice {A} (l : list A) (start stop : Z) : list A :=
  let n := Z.of_nat (List.length l) in
  let lo := slice_bound n start in
  let hi := slice_bound n stop in
  take (Z.to_nat (hi - lo)) (drop (Z.to_nat lo) l).

(** The fields of a user document that are handed out. *)
Definition allowed_fields : list string :=
  [ "displayName"; "id"; "email"; "source"; "photoUrl"; "meteredBilling";
    "method"; "createdAt"; "last_login"; "last_updated_at" ]%string.

Definition timestamp_fields : list string :=
  [ "createdAt"; "last_login"; "last_updated_at" ]%string.

(** The request parameters the page depends on; [None] for an absent key. *)
Record page_request : Type := mkPageRequest {
  req_page_size : option Z;
  req_page : option Z
}.

(** The answer: the page with its [pagination] block and [total_count], or
    the error answer of the [except] branch, which echoes the raw request
    parameters. *)
Inductive users_answer (B : Type) : Type :=
| UsersPage (users : list B) (page page_size : Z) (has_next : bool)
    (total_pages total_count : Z)
| UsersError (page page_size : Z).
Arguments UsersPage {B} users page page_size has_next total_pages total_count.
Arguments UsersError {B} page page_size.

Section UsersPage.
(** Field values of a user document, and the conversion of a timestamp
    value ([v.timestamp()] where the value has that method). *)
Context {V : Type}.
Variable to_timestamp : V → V.

(** The dictionary built for one document of the page: the allowed fields
    that are present, timestamps converted. *)
Definition filtered_user_data (user_data : gmap string V) : gmap string V :=
  let kept := filter (λ kv, fst kv ∈ allowed_fields) user_data in
  foldl (λ acc field, alter to_timestamp field acc) kept timestamp_fields.

(** [get_users_with_pagination] from the filtered documents on (source
    lines 404 to 405 and 453 to 508); [filtered_docs] holds each document's
    data with its [id] added. *)
Definition get_users_with_pagination
    (filtered_docs : list (gmap string V)) (data : page_request)
    : users_answer (gmap string V) :=
  let page_size := Z.min (default 20 (req_page_size data)) 100 in
  let page := Z.max (default 1 (req_page data)) 1 in
  let total_count := Z.of_nat (List.length filtered_docs) in
  let start_index := (page - 1) * page_size in
  let end_index := start_index + page_size in
  let page_docs := py_slice filtered_docs start_index end_index in
  let users_list := map filtered_user_data page_docs in
  let has_next := end_index <? total_count in
  if page_size =? 0 then
    UsersError (default 1 (req_page data)) (default 20 (req_page_size data))
  else
    UsersPage users_list page page_size has_next
      ((total_count + page_size - 1) / page_size) total_count.

End UsersPage.

(** The users on an answer; the error answer carries none. *)
Definition answer_users {B} (a : users_answer B) : list B :=
  match a with
  | UsersPage users _ _ _ _ _ => users
  | UsersError _ _ => []
  end.

(* ===================================================================== *)
(** ** [apis/email.py]: [_json_safe]                                      *)
(* ===================================================================== *)

(** The 64 characters of the URL-safe base64 alphabet. *)
Definition b64_alphabet : string :=
  "ABCDEFGHIJKLMNOPQRSTUVWXYZabcdefghijklmnopqrstuvwxyz0123456789-_".

Definition b64_char (i : N) : ascii :=
  default "="%char (String.get (N.to_nat i) b64_alphabet).

(** [base64.urlsafe_b64encode(b).decode()] *)
Fixpoint urlsafe_b64encode (bs : list Byte.byte) : string :=
  match bs with
  | [] => EmptyString
  | [a] =>
      let x := Byte.to_N a in
      String (b64_char (x / 4))
        (String (b64_char (x mod 4 * 16)) "==")
  | [a; b] =>
      let x := Byte.to_N a in
      let y := Byte.to_N b in
      String (b64_char (x / 4))
        (String (b64_char (x mod 4 * 16 + y / 16))
           (String (b64_char (y mod 16 * 4)) "="))
  | a :: b :: c :: rest =>
      let x := Byte.to_N a in
      let y := Byte.to_N b in
      let z := Byte.to_N c in
      String (b64_char (x / 4))
        (String (b64_char (x mod 4 * 16 + y / 16))
           (String (b64_char (y mod 16 * 4 + z / 64))
              (String (b64_char (z mod 64)) (urlsafe_b64encode rest))))
  end%N.

(** Dictionary keys.  All [_json_safe] does with a key is [str(k)]; a key of
    a kind not spelled out here carries that text. *)
Inductive pykey : Type :=
| KStr (s : string)
| KInt (n : Z)
| KBool (b : bool)
| KNone
| KText (text : string).

#[global] Instance pykey_eq_dec : EqDecision pykey.
Proof. solve_decision. Defined.

(** [str(k)] *)
Definition str_key (k : pykey) : string :=
  match k with
  | KStr s => s
  | KInt n => DecimalString.NilZero.string_of_int (Z.to_int n)
  | KBool true => "True"
  | KBool false => "False"
  | KNone => "None"
  | KText text => text
  end.

(** Python objects as [_json_safe] tells them apart.  A float is carried
    as it is; a datetime is a naive one; an object of any other type
    carries its [str()]. *)
#[warnings="-register-all"]
Inductive pyobj : Type :=
| ONone
| OStr (s : string)
| OInt (n : Z)
| OFloat (bits : Z)
| OBool (b : bool)
| ODatetime (t : datetime)
| ODate (days : Z)
| OBytes (b : list Byte.byte)
| OList (l : list pyobj)
| OTuple (l : list pyobj)
| ODict (items : list (pykey * pyobj))
| OOther (text : string).

(** [d[k] = v] on the items of a dictionary, in insertion order: an
    existing key keeps its place. *)
Fixpoint dict_set (k : pykey) (v : pyobj) (d : list (pykey * pyobj))
    : list (pykey * pyobj) :=
  match d with
  | [] => [(k, v)]
  | (k', v') :: r =>
      if decide (k' = k) then (k', v) :: r else (k', v') :: dict_set k v r
  end.

Fixpoint _json_safe (obj : pyobj) : pyobj :=
  match obj with
  | ONone | OStr _ | OInt _ | OFloat _ | OBool _ => obj
  | ODatetime t => OStr (isoformat t)
  | ODate days => OStr (date_part (days * usec_per_day))
  | OBytes b => OStr (urlsafe_b64encode b)
  | OList l => OList (map _json_safe l)
  | OTuple l => OList (map _json_safe l)
  | ODict items =>
      ODict (foldl (λ acc kv,
                      dict_set (KStr (str_key (fst kv))) (_json_safe (snd kv))
                        acc)
               [] items)
  | OOther text => OStr text
  end.

(** The items a dictionary comprehension builds from [items], after [acc]. *)
Definition rebuilt (acc items : list (pykey * pyobj)) : list (pykey * pyobj) :=
  foldl (λ acc kv,
           dict_set (KStr (str_key (fst kv))) (_json_safe (snd kv)) acc)
    acc items.

(** What the JSON encoder takes without help: [None], strings, numbers,
    booleans, lists of such, and dictionaries of such under string keys. *)
Definition is_str_key (k : pykey) : bool :=
  match k with KStr _ => true | _ => false end.

Fixpoint json_ready (obj : pyobj) : bool :=
  match obj with
  | ONone | OStr _ | OInt _ | OFloat _ | OBool _ => true
  | OList l => forallb json_ready l
  | ODict items =>
      forallb (λ kv, is_str_key (fst kv) && json_ready (snd kv)) items
  | _ => false
  end.

(** Every dictionary inside has pairwise different keys, as a Python
    dictionary does. *)
Fixpoint distinct_keys (obj : pyobj) : bool :=
  match obj with
  | OList l | OTuple l => forallb distinct_keys l
  | ODict items =>
      bool_decide (NoDup (map fst items))
      && forallb (λ kv, distinct_keys (snd kv)) items
  | _ => true
  end.

(* ===================================================================== *)
(** ** Strings and dates: checks                                          *)
(* ===================================================================== *)

Example isoformat_epoch : isoformat 0 = "1970-01-01T00:00:00"%string.
Proof. reflexivity. Qed.

Example isoformat_2024 :
  isoformat 1709210096000250 = "2024-02-29T12:34:56.000250"%string.
Proof. vm_compute. reflexivity. Qed.

Example str_datetime_2024 :
  str_datetime 1709210096000000 = "2024-02-29 12:34:56"%string.
Proof. vm_compute. reflexivity. Qed.

Example split_two : split colon "u1:a1" = ["u1"; "a1"]%string.
Proof. reflexivity. Qed.

Example split_three : split colon "u1:a1:x" = ["u1"; "a1"; "x"]%string.
Proof. reflexivity. Qed.

Example split1_three : split1 colon "u1:a1:x" = ["u1"; "a1:x"]%string.
Proof. reflexivity. Qed.

Example split_none : split colon "u1" = ["u1"]%string.
Proof. reflexivity. Qed.

(* ===================================================================== *)
(** ** The store: lookups after writes                                    *)
(* ===================================================================== *)

Lemma snapshot_cons k k' d (r : store) :
  snapshot k ((k', d) :: r) = if decide (k' = k) then Some d else snapshot k r.
Proof. reflexivity. Qed.

Lemma snapshot_merge_at_eq k f st :
  snapshot k (merge_at k f st) = (λ d, f ∪ d) <$> snapshot k st.
Proof.
  induction st as [|[k0 d0] r IH]; simpl; [done|].
  destruct (decide (k0 = k)) as [->|Hne]; simpl.
  - by rewrite decide_True.
  - by rewrite decide_False.
Qed.

Lemma snapshot_merge_at_ne k k' f st :
  k' ≠ k → snapshot k' (merge_at k f st) = snapshot k' st.
Proof.
  intros Hk. induction st as [|[k0 d0] r IH]; simpl; [done|].
  destruct (decide (k0 = k)) as [->|Hne]; simpl.
  - rewrite !decide_False; congruence.
  - destruct (decide (k0 = k')); done.
Qed.

Lemma snapshot_place_eq k d st :
  snapshot k st = None → snapshot k (place k d st) = Some d.
Proof.
  induction st as [|[k0 d0] r IH]; simpl; intros Hnone.
  - by rewrite decide_True.
  - destruct (decide (k0 = k)) as [->|Hne]; [done|].
    destruct (path_ltb k k0); simpl.
    + by rewrite decide_True.
    + rewrite decide_False; auto.
Qed.

Lemma snapshot_place_ne k k' d st :
  k' ≠ k → snapshot k' (place k d st) = snapshot k' st.
Proof.
  intros Hk. induction st as [|[k0 d0] r IH]; simpl.
  - rewrite decide_False; congruence.
  - destruct (path_ltb k k0); simpl.
    + rewrite (decide_False (P := k = k')); congruence.
    + by rewrite IH.
Qed.

(** What a merging write leaves at the written path: the written fields
    over whatever was there. *)
Lemma snapshot_set_merge_eq k f st :
  snapshot k (set_merge k f st) = Some (f ∪ to_dict (snapshot k st)).
Proof.
  unfold set_merge, to_dict.
  destruct (snapshot k st) as [d|] eqn:Hs; simpl.
  - by rewrite snapshot_merge_at_eq, Hs.
  - rewrite snapshot_place_eq by done. by rewrite (right_id_L ∅ (∪)).
Qed.

Lemma snapshot_set_merge_ne k k' f st :
  k' ≠ k → snapshot k' (set_merge k f st) = snapshot k' st.
Proof.
  intros Hk. unfold set_merge.
  destruct (snapshot k st); auto using snapshot_merge_at_ne, snapshot_place_ne.
Qed.

Lemma snapshot_delete_eq k st : snapshot k (delete_doc k st) = None.
Proof.
  unfold delete_doc. induction st as [|[k0 d0] r IH]; [done|].
  rewrite filter_cons. simpl. case_decide as Hd; simpl; [|done].
  rewrite decide_False; done.
Qed.

Lemma snapshot_delete_ne k k' st :
  k' ≠ k → snapshot k' (delete_doc k st) = snapshot k' st.
Proof.
  intros Hk. unfold delete_doc. induction st as [|[k0 d0] r IH]; [done|].
  rewrite filter_cons. simpl. case_decide as Hd; simpl.
  - by rewrite IH.
  - subst k0. rewrite decide_False; [done|congruence].
Qed.

(** The scan stops at the first document carrying the id. *)
Lemma scan_first account_id (pre : store) k d post :
  Forall (λ e, id_of (fst e) ≠ account_id) pre →
  id_of k = account_id →
  scan account_id (pre ++ (k, d) :: post) = Some k.
Proof.
  intros Hpre Hk. induction Hpre as [|e pre He _ IH]; simpl.
  - by rewrite decide_True.
  - by rewrite decide_False.
Qed.

Lemma scan_sound account_id st k :
  scan account_id st = Some k →
  id_of k = account_id ∧ is_Some (snapshot k st).
Proof.
  induction st as [|[k0 d0] r IH]; simpl; [done|].
  destruct (decide (id_of k0 = account_id)) as [Hid|Hid].
  - intros [= <-]. split; [done|]. rewrite decide_True; eauto.
  - intros Hs. destruct (IH Hs) as [? ?]. split; [done|].
    destruct (decide (k0 = k)); eauto.
Qed.

Lemma limit1_sound uid st e rest :
  limit1 uid st = e :: rest →
  rest = [] ∧ owner_of (fst e) = uid ∧ snapshot (fst e) st = Some (snd e).
Proof.
  induction st as [|[k0 d0] r IH]; simpl; [done|].
  destruct (decide (owner_of k0 = uid)) as [Ho|Ho].
  - intros [= <- <-]. simpl. by rewrite decide_True.
  - intros Hl. destruct (IH Hl) as (? & ? & Hs). split_and!; [done..|].
    destruct (decide (k0 = fst e)) as [->|]; [congruence|done].
Qed.

Lemma limit1_nil uid st :
  limit1 uid st = [] ↔ Forall (λ e, owner_of (fst e) ≠ uid) st.
Proof.
  induction st as [|[k0 d0] r IH]; simpl.
  - split; [constructor|done].
  - destruct (decide (owner_of k0 = uid)) as [Ho|Ho].
    + split; [done|]. inversion 1; simplify_eq/=.
    + rewrite IH. split; [by constructor|by inversion 1].
Qed.

(** A resolved reference names an existing document by the requested id,
    together with the owner segment of its path. *)
Lemma _doc_ref_for_account_sound uid account_id st k o :
  _doc_ref_for_account uid account_id st = Some (k, o) →
  k = (o, account_id) ∧ is_Some (snapshot k st).
Proof.
  unfold _doc_ref_for_account.
  destruct (str_truthy uid);
    [destruct (snapshot (uid, account_id) st) as [d|] eqn:Hd|].
  - intros [= <- <-]. rewrite Hd. eauto.
  - destruct (scan account_id st) as [k'|] eqn:Hs; [|done].
    intros [= <- <-]. destruct (scan_sound _ _ _ Hs) as [Hid ?].
    split; [|done]. destruct k' as [o' a']. simpl in *. by subst.
  - destruct (scan account_id st) as [k'|] eqn:Hs; [|done].
    intros [= <- <-]. destruct (scan_sound _ _ _ Hs) as [Hid ?].
    split; [|done]. destruct k' as [o' a']. simpl in *. by subst.
Qed.

(* ===================================================================== *)
(** ** Account resolution                                                 *)
(* ===================================================================== *)

Lemma snapshot_after_foreign_prefix account_id (pre : store) k d post :
  Forall (λ e, id_of (fst e) ≠ account_id) pre →
  id_of k = account_id →
  snapshot k (pre ++ (k, d) :: post) = Some d.
Proof.
  intros Hpre Hk. induction Hpre as [|[k0 d0] pre He _ IH]; simpl.
  - by rewrite decide_True.
  - rewrite decide_False; [done|]. intros ->. simpl in He. congruence.
Qed.

(** C4. Resolution tries the caller's own path first.  When the caller owns
    no document of that id, the scan over all owners answers with the first
    document of the stream that carries the id, whatever follows it (other
    owners holding the same id included), and with the owner segment of that
    document's path, which is not the caller. *)
Theorem resolution_falls_back_to_first_match uid account_id (st : store) :
  (str_truthy uid = true →
   is_Some (snapshot (uid, account_id) st) →
   _doc_ref_for_account uid account_id st = Some ((uid, account_id), uid))
  ∧ (snapshot (uid, account_id) st = None →
     ∀ pre k d post,
       st = pre ++ (k, d) :: post →
       Forall (λ e, id_of (fst e) ≠ account_id) pre →
       id_of k = account_id →
       _doc_ref_for_account uid account_id st = Some (k, owner_of k)
       ∧ owner_of k ≠ uid
       ∧ snapshot k st = Some d).
Proof.
  split.
  - intros Hu [d Hd]. unfold _doc_ref_for_account. by rewrite Hu, Hd.
  - intros Hnone pre k d post -> Hpre Hk.
    assert (Hsnap : snapshot k (pre ++ (k, d) :: post) = Some d)
      by eauto using snapshot_after_foreign_prefix.
    split_and!; [|intros Ho|done].
    + unfold _doc_ref_for_account. rewrite Hnone.
      erewrite scan_first by done. by destruct (str_truthy uid).
    + destruct k as [o a]. simpl in *. subst. congruence.
Qed.

Lemma resolution_falls_back_to_first_match_witness :
  (_doc_ref_for_account "u3" "a1" Sample.shared_id
   = Some (("u3", "a1"), "u3")%string)
  ∧ snapshot ("u1", "a1")%string Sample.shared_id = None
  ∧ _doc_ref_for_account "u1" "a1" Sample.shared_id
    = Some (("u2", "a1"), "u2")%string
  ∧ "u2"%string ≠ "u1"%string
  ∧ snapshot ("u2", "a1")%string Sample.shared_id = Some Sample.connected.
Proof.
  split; [|split; [reflexivity|]].
  - apply (proj1 (resolution_falls_back_to_first_match "u3" "a1"
                    Sample.shared_id) eq_refl).
    exists Sample.placeholder. reflexivity.
  - apply (proj2 (resolution_falls_back_to_first_match "u1" "a1"
                    Sample.shared_id)
             eq_refl [] ("u2", "a1")%string Sample.connected
             [(("u3", "a1"), Sample.placeholder);
              (("u3", "a2"), Sample.tokenless)]%string).
    + reflexivity.
    + constructor.
    + reflexivity.
Defined.

(* ===================================================================== *)
(** ** Disconnecting                                                      *)
(* ===================================================================== *)

(** C3. A caller who is neither the owner of the resolved document nor an
    admin is refused and nothing changes.  The owner, or any caller in admin
    mode, deletes the document: the direct lookup under its owner finds
    nothing afterwards, and no other document is touched. *)
Theorem disconnect_owner_or_admin_only
    uid account_id admin_mode w doc_ref owner_uid :
  _doc_ref_for_account uid account_id (docs w) = Some (doc_ref, owner_uid) →
  (admin_mode = false → owner_uid ≠ uid →
   disconnect_account uid account_id admin_mode w
   = (Return (mkResult false (Some PermissionDenied)), w))
  ∧ (admin_mode = true ∨ owner_uid = uid →
     ∃ w', disconnect_account uid account_id admin_mode w
           = (Return (mkResult true None), w')
           ∧ resolveForOwner owner_uid account_id (docs w') = None
           ∧ (∀ k, k ≠ doc_ref → snapshot k (docs w') = snapshot k (docs w))
           ∧ calls w' = calls w).
Proof.
  intros Hres.
  destruct (_doc_ref_for_account_sound _ _ _ _ _ Hres) as [Hk _].
  split.
  - intros -> Hne.
    unfold disconnect_account, try_except, bind, get_docs, ret. simpl.
    rewrite Hres. simpl.
    destruct (String.eqb_spec owner_uid uid) as [|_]; [done|].
    by destruct w.
  - intros Hallowed.
    exists (mkWorld (delete_doc doc_ref (docs w)) (calls w)).
    split_and!.
    + unfold disconnect_account, try_except, bind, get_docs, ret. simpl.
      rewrite Hres. simpl.
      destruct Hallowed as [->| ->]; simpl; [done|].
      rewrite String.eqb_refl, andb_false_r. done.
    + unfold resolveForOwner. simpl. rewrite <- Hk.
      apply snapshot_delete_eq.
    + intros k Hne. simpl. by apply snapshot_delete_ne.
    + done.
Qed.

Lemma disconnect_owner_or_admin_only_witness :
  disconnect_account "u1" "a1" false (Sample.world_of Sample.shared_id)
  = (Return (mkResult false (Some PermissionDenied)),
     Sample.world_of Sample.shared_id)
  ∧ ∃ w', disconnect_account "u1" "a1" true (Sample.world_of Sample.shared_id)
          = (Return (mkResult true None), w')
          ∧ resolveForOwner "u2" "a1" (docs w') = None
          ∧ (∀ k, k ≠ ("u2", "a1")%string →
                  snapshot k (docs w') = snapshot k Sample.shared_id)
          ∧ calls w' = [].
Proof.
  split.
  - apply (proj1 (disconnect_owner_or_admin_only "u1" "a1" false
                    (Sample.world_of Sample.shared_id)
                    ("u2", "a1")%string "u2" eq_refl) eq_refl).
    discriminate.
  - apply (proj2 (disconnect_owner_or_admin_only "u1" "a1" true
                    (Sample.world_of Sample.shared_id)
                    ("u2", "a1")%string "u2" eq_refl)).
    left. reflexivity.
Defined.

(* ===================================================================== *)
(** ** Live credentials                                                   *)
(* ===================================================================== *)

Lemma get_credentials_eq P now uid account_id w :
  get_credentials P now uid account_id w =
  match credential_ref uid account_id (docs w) with
  | None => (Return None, w)
  | Some k =>
      let d := to_dict (snapshot k (docs w)) in
      match d !! "refresh_token" with
      | None => (Return None, w)
      | Some rt =>
          let c := loaded_credentials d rt in
          if negb (valid now c) || expired now c then
            match refresh_and_persist P k c w with
            | (Return c', w') => (Return (Some c'), w')
            | (Raise e, w') => (Raise e, w')
            end
          else (Return (Some c), w)
      end
  end.
Proof.
  unfold get_credentials, credential_ref, refresh_and_persist, bind, get_docs,
    doc_get, ret. simpl.
  destruct (match given account_id with Some _ => _ | None => _ end); [|done].
  destruct (to_dict _ !! "refresh_token"); [|done].
  destruct (negb _ || _); [|done].
  destruct (refresh P _ w) as [[c'|e] w']; [|done].
  destruct (doc_update _ _ w') as [[[]|e] w'']; done.
Qed.

Lemma get_service_eq P now uid account_id w :
  get_service P now uid account_id w =
  match _doc_ref_for_account uid account_id (docs w) with
  | None => (Raise (ValueError NotConnected), w)
  | Some (k, _) =>
      let d := to_dict (snapshot k (docs w)) in
      match d !! "refresh_token" with
      | None => (Raise (ValueError NotConnected), w)
      | Some rt =>
          let c := loaded_credentials d rt in
          if negb (valid now c) || expired now c then
            match refresh_and_persist P k c w with
            | (Return c', w') => (Return (build c'), w')
            | (Raise e, w') => (Raise e, w')
            end
          else (Return (build c), w)
      end
  end.
Proof.
  unfold get_service, refresh_and_persist, bind, get_docs, doc_get, ret, raise.
  simpl.
  destruct (_doc_ref_for_account uid account_id (docs w)) as [[k o]|]; [|done].
  destruct (to_dict _ !! "refresh_token"); [|done].
  destruct (negb _ || _); [|done].
  destruct (refresh P _ w) as [[c'|e] w']; [|done].
  destruct (doc_update _ _ w') as [[[]|e] w'']; done.
Qed.

(** A credential built from stored data needs a refresh exactly when the
    stored access token is [None] or missing: the stored expiry plays no
    part. *)
Lemma loaded_needs_refresh now d rt :
  negb (valid now (loaded_credentials d rt))
  || expired now (loaded_credentials d rt)
  = bool_decide (py_get d "access_token" = VNone).
Proof.
  unfold valid, expired, loaded_credentials. simpl.
  destruct (py_get d "access_token"); by rewrite ?bool_decide_eq_true_2,
    ?bool_decide_eq_false_2 by done.
Qed.

(** C5. A stored record without a [refresh_token] yields no credential:
    [get_credentials] answers [None] and [get_service] raises "Gmail account
    not connected"; neither contacts the provider nor writes. *)
Theorem pending_record_is_not_usable P now uid (w : world) :
  (∀ account_id k d,
     credential_ref uid account_id (docs w) = Some k →
     snapshot k (docs w) = Some d →
     d !! "refresh_token" = None →
     get_credentials P now uid account_id w = (Return None, w))
  ∧ (∀ account_id k o d,
       _doc_ref_for_account uid account_id (docs w) = Some (k, o) →
       snapshot k (docs w) = Some d →
       d !! "refresh_token" = None →
       get_service P now uid account_id w
       = (Raise (ValueError NotConnected), w)).
Proof.
  split.
  - intros account_id k d Hk Hd Hrt.
    rewrite get_credentials_eq, Hk, Hd. simpl. by rewrite Hrt.
  - intros account_id k o d Hk Hd Hrt.
    rewrite get_service_eq, Hk, Hd. simpl. by rewrite Hrt.
Qed.

Lemma pending_record_is_not_usable_witness :
  get_credentials Sample.granting Sample.t0 "u3" (Some "a1"%string)
    (Sample.world_of Sample.shared_id)
  = (Return None, Sample.world_of Sample.shared_id)
  ∧ get_service Sample.granting Sample.t0 "u1" "a1"
      (mkWorld [(("u5", "a1")%string, Sample.placeholder)] [])
    = (Raise (ValueError NotConnected),
       mkWorld [(("u5", "a1")%string, Sample.placeholder)] []).
Proof.
  split.
  - apply (proj1 (pending_record_is_not_usable Sample.granting Sample.t0 "u3"
                    (Sample.world_of Sample.shared_id))
             (Some "a1"%string) ("u3", "a1")%string Sample.placeholder);
      vm_compute; reflexivity.
  - apply (proj2 (pending_record_is_not_usable Sample.granting Sample.t0 "u1"
                    (mkWorld [(("u5", "a1")%string, Sample.placeholder)] []))
             "a1"%string ("u5", "a1")%string "u5"%string Sample.placeholder);
      vm_compute; reflexivity.
Defined.

(** What the refresh branch does on an existing document, given a refresh
    token: one refresh request; on success the new token and expiry are
    merged into the document; on failure nothing is written. *)
Lemma refresh_and_persist_spec P k c (w : world) d :
  snapshot k (docs w) = Some d →
  refresh_token c ≠ VNone →
  refresh_and_persist P k c w =
  match refresh_grant P (refresh_token c) with
  | Return r =>
      let c' := mkCredentials (VStr (fst r)) (refresh_token c) (snd r) in
      (Return c',
       mkWorld (merge_at k (refreshed_fields c') (docs w))
         (calls w ++ [RefreshGrant (refresh_token c)]))
  | Raise e =>
      (Raise e, mkWorld (docs w) (calls w ++ [RefreshGrant (refresh_token c)]))
  end.
Proof.
  intros Hd Hrt.
  unfold refresh_and_persist, refresh, doc_update, bind, log_call, lift,
    get_docs, put_docs, ret.
  destruct (refresh_token c) as [|s|t]; [done| |]; simpl;
    (destruct (refresh_grant P _) as [r|e]; simpl; [|done]);
    by rewrite Hd.
Qed.

(** Without a refresh token nothing is sent and nothing is written. *)
Lemma refresh_and_persist_no_token P k c (w : world) :
  refresh_token c = VNone →
  ∃ e, refresh_and_persist P k c w = (Raise e, w).
Proof.
  intros Hrt. unfold refresh_and_persist, refresh, bind, raise.
  rewrite Hrt. by eexists.
Qed.

Lemma refresh_and_persist_calls P k c (w : world) d :
  snapshot k (docs w) = Some d →
  refresh_token c ≠ VNone →
  calls (snd (refresh_and_persist P k c w))
  = calls w ++ [RefreshGrant (refresh_token c)].
Proof.
  intros Hd Hrt. rewrite (refresh_and_persist_spec _ _ _ _ _ Hd Hrt).
  by destruct (refresh_grant P (refresh_token c)).
Qed.

Lemma not_refreshed_refl (w : world) : ¬ refreshed w w.
Proof.
  intros [rt Hrt]. apply (f_equal (@List.length call)) in Hrt.
  rewrite length_app in Hrt. simpl in Hrt. lia.
Qed.

(** What the code does about refreshing: for a stored record with a
    [refresh_token], [get_credentials] asks the provider for a refresh if
    and only if the stored [access_token] is [None] or missing. *)
Lemma get_credentials_refresh_iff P now uid account_id (w : world) k d rt :
  credential_ref uid account_id (docs w) = Some k →
  snapshot k (docs w) = Some d →
  d !! "refresh_token" = Some rt →
  rt ≠ VNone →
  refreshed w (snd (get_credentials P now uid account_id w))
  ↔ py_get d "access_token" = VNone.
Proof.
  intros Hk Hd Hrt Hne. rewrite get_credentials_eq, Hk, Hd. simpl. rewrite Hrt.
  rewrite loaded_needs_refresh. case_bool_decide as Htok.
  - split; [done|]. intros _. exists rt.
    pose proof (refresh_and_persist_calls P k (loaded_credentials d rt) w d
                  Hd Hne) as Hc.
    by destruct (refresh_and_persist P k (loaded_credentials d rt) w)
      as [[c'|e] w'].
  - split; [|done]. intros Hr. by apply not_refreshed_refl in Hr.
Qed.

Lemma get_service_refresh_iff P now uid account_id (w : world) k o d rt :
  _doc_ref_for_account uid account_id (docs w) = Some (k, o) →
  snapshot k (docs w) = Some d →
  d !! "refresh_token" = Some rt →
  rt ≠ VNone →
  refreshed w (snd (get_service P now uid account_id w))
  ↔ py_get d "access_token" = VNone.
Proof.
  intros Hk Hd Hrt Hne. rewrite get_service_eq, Hk, Hd. simpl. rewrite Hrt.
  rewrite loaded_needs_refresh. case_bool_decide as Htok.
  - split; [done|]. intros _. exists rt.
    pose proof (refresh_and_persist_calls P k (loaded_credentials d rt) w d
                  Hd Hne) as Hc.
    by destruct (refresh_and_persist P k (loaded_credentials d rt) w)
      as [[c'|e] w'].
  - split; [|done]. intros Hr. by apply not_refreshed_refl in Hr.
Qed.

(** When the refresh succeeds, the new token and expiry are merged into the
    record: every other field, and every other document, stays. *)
Lemma refresh_persists_by_merge P now uid account_id (w : world) k d rt tok e :
  credential_ref uid account_id (docs w) = Some k →
  snapshot k (docs w) = Some d →
  d !! "refresh_token" = Some rt →
  rt ≠ VNone →
  py_get d "access_token" = VNone →
  refresh_grant P rt = Return (tok, e) →
  ∃ w', get_credentials P now uid account_id w
        = (Return (Some (mkCredentials (VStr tok) rt e)), w')
        ∧ (∃ d', snapshot k (docs w') = Some d'
                 ∧ d' !! "access_token" = Some (VStr tok)
                 ∧ d' !! "expiry" = Some (expiry_iso e)
                 ∧ ∀ f, f ≠ "access_token"%string → f ≠ "expiry"%string →
                        d' !! f = d !! f)
        ∧ (∀ k', k' ≠ k → snapshot k' (docs w') = snapshot k' (docs w)).
Proof.
  intros Hk Hd Hrt Hne Htok Hgrant.
  rewrite get_credentials_eq, Hk, Hd. simpl. rewrite Hrt.
  rewrite loaded_needs_refresh, bool_decide_eq_true_2 by done.
  rewrite (refresh_and_persist_spec _ _ _ _ _ Hd) by done. simpl.
  rewrite Hgrant.
  eexists. split; [reflexivity|]. simpl. split.
  - eexists. rewrite snapshot_merge_at_eq, Hd. simpl.
    split; [reflexivity|]. unfold refreshed_fields. simpl.
    split_and!.
    + apply lookup_union_Some_l. by simplify_map_eq.
    + apply lookup_union_Some_l. by simplify_map_eq.
    + intros f Hf1 Hf2. rewrite lookup_union_r; [done|]. by simplify_map_eq.
  - intros k' Hne'. by apply snapshot_merge_at_ne.
Qed.

(** C1, evaluated where the code departs from it.  The record holds a
    refresh token, an access token and an expiry of 2020-01-01; the call is
    made in 2024.  Both entry points hand back the stored access token and
    send nothing to the provider, because the stored expiry is never given
    to the credential object.  The same happens when the record has an
    access token and no expiry at all, and when the record is the one the
    service itself wrote on connection and a day has passed since the token
    expired. *)
Theorem stale_token_served_without_refresh :
  let w := Sample.world_of [(("u1", "a1")%string, Sample.stale)] in
  let w' := Sample.world_of [(("u1", "a1")%string, Sample.undated)] in
  let c := mkCredentials (VStr "a0") (VStr "r0") None in
  (stored_expiry Sample.stale Sample.t_old
   ∧ Sample.t_old < Sample.t0
   ∧ get_credentials Sample.granting Sample.t0 "u1" (Some "a1"%string) w
     = (Return (Some c), w)
   ∧ get_service Sample.granting Sample.t0 "u1" "a1" w = (Return (build c), w))
  ∧ (Sample.undated !! "expiry" = None
     ∧ get_credentials Sample.granting Sample.t0 "u1" (Some "a1"%string) w'
       = (Return (Some c), w')
     ∧ get_service Sample.granting Sample.t0 "u1" "a1" w'
       = (Return (build c), w'))
  ∧ (let w1 := snd (get_auth_url Sample.granting Sample.t0 "u1" "id-1" None
                      (Sample.world_of [])) in
     let w2 := snd (handle_callback Sample.granting "u1:id-1" "code" w1) in
     let later := Sample.t1 + usec_per_day in
     to_dict (snapshot ("u1", "id-1")%string (docs w2)) !! "expiry"
     = Some (VStr (str_datetime Sample.t1))
     ∧ get_credentials Sample.granting later "u1" (Some "id-1"%string) w2
       = (Return (Some (mkCredentials (VStr "a1") (VStr "r1") None)), w2)).
Proof.
  split_and!; try (vm_compute; reflexivity).
  - left. vm_compute. reflexivity.
  - split; vm_compute; reflexivity.
Qed.

(** C9. A connected record whose access token is present and whose stored
    expiry lies ahead is served twice in a row without any provider call and
    without any write: both calls return the stored token pair and the world
    after the second call is the world before the first. *)
Theorem valid_token_is_served_without_refresh
    P1 P2 now1 now2 uid (w : world) k d rt :
  snapshot k (docs w) = Some d →
  d !! "refresh_token" = Some rt →
  py_get d "access_token" ≠ VNone →
  expiry_in_future now1 d →
  expiry_in_future now2 d →
  (∀ account_id,
     credential_ref uid account_id (docs w) = Some k →
     let r1 := get_credentials P1 now1 uid account_id w in
     let r2 := get_credentials P2 now2 uid account_id (snd r1) in
     ∃ c, fst r1 = Return (Some c) ∧ fst r2 = Return (Some c)
          ∧ token c = py_get d "access_token" ∧ refresh_token c = rt
          ∧ snd r1 = w ∧ snd r2 = w)
  ∧ (∀ account_id o,
       _doc_ref_for_account uid account_id (docs w) = Some (k, o) →
       let r1 := get_service P1 now1 uid account_id w in
       let r2 := get_service P2 now2 uid account_id (snd r1) in
       ∃ c, fst r1 = Return (build c) ∧ fst r2 = Return (build c)
            ∧ token c = py_get d "access_token" ∧ refresh_token c = rt
            ∧ snd r1 = w ∧ snd r2 = w).
Proof.
  intros Hd Hrt Htok _ _. split.
  - intros account_id Hk.
    assert (Hcall : ∀ P now, get_credentials P now uid account_id w
                             = (Return (Some (loaded_credentials d rt)), w)).
    { intros P now. rewrite get_credentials_eq, Hk, Hd. simpl. rewrite Hrt.
      by rewrite loaded_needs_refresh, bool_decide_eq_false_2. }
    simpl. rewrite (Hcall P1 now1). simpl. rewrite (Hcall P2 now2). simpl.
    by exists (loaded_credentials d rt).
  - intros account_id o Hk.
    assert (Hcall : ∀ P now, get_service P now uid account_id w
                             = (Return (build (loaded_credentials d rt)), w)).
    { intros P now. rewrite get_service_eq, Hk, Hd. simpl. rewrite Hrt.
      by rewrite loaded_needs_refresh, bool_decide_eq_false_2. }
    simpl. rewrite (Hcall P1 now1). simpl. rewrite (Hcall P2 now2). simpl.
    by exists (loaded_credentials d rt).
Qed.

Lemma valid_token_is_served_without_refresh_witness :
  let w := Sample.world_of [(("u1", "a1")%string, Sample.connected)] in
  expiry_in_future Sample.t0 Sample.connected
  ∧ (let r1 := get_credentials Sample.granting Sample.t0 "u1"
                 (Some "a1"%string) w in
     let r2 := get_credentials Sample.granting (Sample.t0 + 1000000) "u1"
                 (Some "a1"%string) (snd r1) in
     ∃ c, fst r1 = Return (Some c) ∧ fst r2 = Return (Some c)
          ∧ token c = py_get Sample.connected "access_token"
          ∧ refresh_token c = VStr "r0"
          ∧ snd r1 = w ∧ snd r2 = w)
  ∧ (let r1 := get_service Sample.granting Sample.t0 "u9" "a1" w in
     let r2 := get_service Sample.granting (Sample.t0 + 1000000) "u9" "a1"
                 (snd r1) in
     ∃ c, fst r1 = Return (build c) ∧ fst r2 = Return (build c)
          ∧ token c = py_get Sample.connected "access_token"
          ∧ refresh_token c = VStr "r0"
          ∧ snd r1 = w ∧ snd r2 = w).
Proof.
  assert (Hfut : ∀ now, now < Sample.t1 → expiry_in_future now Sample.connected).
  { intros now Hnow. exists Sample.t1. split; [left; vm_compute; reflexivity|done]. }
  split; [apply Hfut; reflexivity|]. split.
  - apply (proj1 (valid_token_is_served_without_refresh
                    Sample.granting Sample.granting
                    Sample.t0 (Sample.t0 + 1000000) "u1"
                    (Sample.world_of [(("u1", "a1")%string, Sample.connected)])
                    ("u1", "a1")%string Sample.connected (VStr "r0")
                    eq_refl eq_refl ltac:(vm_compute; discriminate)
                    (Hfut Sample.t0 eq_refl)
                    (Hfut (Sample.t0 + 1000000) eq_refl))
             (Some "a1"%string) eq_refl).
  - apply (proj2 (valid_token_is_served_without_refresh
                    Sample.granting Sample.granting
                    Sample.t0 (Sample.t0 + 1000000) "u9"
                    (Sample.world_of [(("u1", "a1")%string, Sample.connected)])
                    ("u1", "a1")%string Sample.connected (VStr "r0")
                    eq_refl eq_refl ltac:(vm_compute; discriminate)
                    (Hfut Sample.t0 eq_refl)
                    (Hfut (Sample.t0 + 1000000) eq_refl))
             "a1"%string "u1"%string eq_refl).
Defined.

(* ===================================================================== *)
(** ** Completing a connection                                            *)
(* ===================================================================== *)

Lemma cut_first_contains c s :
  contains c s = true ↔ is_Some (cut_first c s).
Proof.
  induction s as [|a r IH]; simpl.
  - split; [done|]. by intros [? ?].
  - destruct (Ascii.eqb a c); [by eauto|].
    rewrite IH. destruct (cut_first c r) as [[h t]|]; split; eauto;
      by intros [? ?].
Qed.

Lemma split_nonempty c s : split c s ≠ [].
Proof.
  destruct s as [|a r]; simpl; [done|].
  destruct (Ascii.eqb a c); [done|]. by destruct (split c r).
Qed.

(** A string without separator is its own single part. *)
Lemma split_no_separator c s : contains c s = false → split c s = [s].
Proof.
  induction s as [|a r IH]; simpl; [done|].
  destruct (Ascii.eqb a c); [done|]. intros Hr. by rewrite IH.
Qed.

Lemma split_single c s b : split c s = [b] → b = s.
Proof.
  revert b. induction s as [|x r IH]; simpl; intros b.
  - by intros [= <-].
  - destruct (Ascii.eqb x c).
    + intros [= _ Hr]. by apply split_nonempty in Hr.
    + destruct (split c r) as [|h t] eqn:Hs;
        [by apply split_nonempty in Hs|].
      intros [= <- ->]. by rewrite (IH h eq_refl).
Qed.

(** With exactly two parts, the unbounded and the bounded split agree. *)
Lemma split_pair_cut_first c s a b :
  split c s = [a; b] → cut_first c s = Some (a, b).
Proof.
  revert a. induction s as [|x r IH]; simpl; intros a; [done|].
  destruct (Ascii.eqb x c).
  - intros [= <- Hr]. by rewrite (split_single _ _ _ Hr).
  - destruct (split c r) as [|h t] eqn:Hs; [done|].
    intros [= <- ->]. by rewrite (IH h eq_refl).
Qed.

(** The state [get_auth_url] builds is read back by the callback as the
    same owner and account, provided the owner id holds no delimiter. *)
Lemma encode_state_cut_first uid account_id :
  contains colon uid = false →
  cut_first colon (encode_state uid account_id) = Some (uid, account_id).
Proof.
  unfold encode_state. induction uid as [|x r IH]; [done|].
  change (String x r +:+ ":" +:+ account_id)
    with (String x (r +:+ ":" +:+ account_id)).
  simpl. destruct (Ascii.eqb x colon); [done|]. intros Hr. by rewrite IH.
Qed.

(** What the callback answers when the exchange carries no refresh token:
    it stops there, whatever the stored record holds. *)
Lemma handle_callback_without_exchange_token P state code (w : world) c :
  contains colon state = true →
  fetch_token P code state = Return c →
  truthy (refresh_token c) = false →
  handle_callback P state code w
  = (Return (None, Some NoRefreshToken),
     mkWorld (docs w) (calls w ++ [FetchToken code state])).
Proof.
  intros Hc Hf Hrt.
  apply cut_first_contains in Hc as [[a b] Hcut].
  assert (Hin : contains colon state = true)
    by (apply cut_first_contains; eauto).
  unfold handle_callback, try_except, bind, unpack2, split1, log_call, lift, ret.
  rewrite Hin, Hcut. simpl. rewrite Hf, Hrt. done.
Qed.

(** The sibling path does fall back: with no refresh token from the
    exchange, [save_refresh_token] fails for want of one exactly when the
    stored record has none either, and otherwise writes the stored one
    back. *)
Lemma save_refresh_token_falls_back P code state (w : world) a b c :
  split colon state = [a; b] →
  fetch_token P code state = Return c →
  truthy (refresh_token c) = false →
  let stored := py_get (to_dict (snapshot (a, b) (docs w))) "refresh_token" in
  (truthy stored = false →
   save_refresh_token P code state w
   = (Return (mkResult false (Some NoRefreshToken)),
      mkWorld (docs w) (calls w ++ [FetchToken code state])))
  ∧ (truthy stored = true →
     ∀ email, get_profile P c = Return email →
     save_refresh_token P code state w
     = (Return (mkResult true None),
        mkWorld (set_merge (a, b)
                   (connection_fields stored c (expiry_iso (expiry c)) email)
                   (docs w))
          (calls w ++ [FetchToken code state; GetProfile c]))).
Proof.
  intros Hs Hf Hrt stored. subst stored.
  unfold save_refresh_token, bind, unpack2, log_call, lift, ret, doc_get,
    doc_set_merge, get_docs, put_docs, py_or.
  rewrite Hs. simpl. rewrite Hf. simpl. rewrite Hrt. split.
  - intros ->. done.
  - intros -> email Hp. simpl. rewrite Hp. simpl.
    by rewrite <- app_assoc.
Qed.

(** C2, evaluated where the code departs from it.  The exchange returns no
    refresh token and the stored record holds one.  [handle_callback], the
    path the callback endpoint takes, answers "No refresh_token returned"
    after the exchange and writes nothing; [save_refresh_token] on the same
    input succeeds and keeps the stored token. *)
Theorem reconsent_with_stored_token_is_rejected :
  let w := Sample.world_of [(("u1", "a1")%string, Sample.connected)] in
  refresh_token <$> fetch_token_result Sample.reconsent "code" "u1:a1"
  = Some VNone
  ∧ Sample.connected !! "refresh_token" = Some (VStr "r0")
  ∧ handle_callback Sample.reconsent "u1:a1" "code" w
    = (Return (None, Some NoRefreshToken),
       mkWorld (docs w) [FetchToken "code" "u1:a1"])
  ∧ ∃ w', save_refresh_token Sample.reconsent "code" "u1:a1" w
          = (Return (mkResult true None), w')
          ∧ to_dict (snapshot ("u1", "a1")%string (docs w')) !! "refresh_token"
            = Some (VStr "r0").
Proof.
  split_and!; try (vm_compute; reflexivity).
  eexists. split; vm_compute; reflexivity.
Qed.

(* ===================================================================== *)
(** ** The creation timestamp                                             *)
(* ===================================================================== *)

Lemma keeps_field_refl f st : keeps_field f st st.
Proof. intros k d v Hs Hv. eauto. Qed.

Lemma keeps_field_merge_at f k (fields : doc) st :
  fields !! f = None → keeps_field f st (merge_at k fields st).
Proof.
  intros Hf k' d v Hs Hv. destruct (decide (k' = k)) as [->|Hne].
  - rewrite snapshot_merge_at_eq, Hs. simpl. eexists. split; [done|].
    by rewrite lookup_union_r.
  - rewrite snapshot_merge_at_ne by done. eauto.
Qed.

Lemma keeps_field_set_merge f k (fields : doc) st :
  fields !! f = None → keeps_field f st (set_merge k fields st).
Proof.
  intros Hf k' d v Hs Hv. destruct (decide (k' = k)) as [->|Hne].
  - rewrite snapshot_set_merge_eq, Hs. simpl. eexists. split; [done|].
    by rewrite lookup_union_r.
  - rewrite snapshot_set_merge_ne by done. eauto.
Qed.

Lemma connection_fields_createdAt rt c e email :
  connection_fields rt c e email !! "createdAt" = None.
Proof. unfold connection_fields. by simplify_map_eq. Qed.

Lemma refreshed_fields_createdAt c : refreshed_fields c !! "createdAt" = None.
Proof. unfold refreshed_fields. by simplify_map_eq. Qed.

(** Completing a connection, by either path and any number of times, leaves
    every stored [createdAt] as it was. *)
Lemma handle_callback_keeps_createdAt P state code (w : world) :
  keeps_field "createdAt" (docs w) (docs (snd (handle_callback P state code w))).
Proof.
  unfold handle_callback, try_except, bind, unpack2, split1, log_call, lift,
    ret, raise, doc_get, doc_set_merge, get_docs, put_docs.
  destruct (contains colon state); simpl; [|apply keeps_field_refl].
  destruct (cut_first colon state) as [[a b]|]; simpl;
    [|apply keeps_field_refl].
  destruct (fetch_token P code state) as [c|e]; simpl;
    [|apply keeps_field_refl].
  destruct (truthy (refresh_token c)); simpl; [|apply keeps_field_refl].
  destruct (truthy (py_or _ _)); simpl; [|apply keeps_field_refl].
  destruct (get_profile P c) as [email|e]; simpl; [|apply keeps_field_refl].
  apply keeps_field_set_merge, connection_fields_createdAt.
Qed.

Lemma save_refresh_token_keeps_createdAt P code state (w : world) :
  keeps_field "createdAt" (docs w)
    (docs (snd (save_refresh_token P code state w))).
Proof.
  unfold save_refresh_token, bind, unpack2, log_call, lift, ret, raise,
    doc_get, doc_set_merge, get_docs, put_docs.
  destruct (split colon state) as [|a [|b [|x l]]]; simpl;
    try apply keeps_field_refl.
  destruct (fetch_token P code state) as [c|e]; simpl;
    [|apply keeps_field_refl].
  destruct (truthy (py_or _ _)); simpl; [|apply keeps_field_refl].
  destruct (get_profile P c) as [email|e]; simpl; [|apply keeps_field_refl].
  apply keeps_field_set_merge, connection_fields_createdAt.
Qed.

(** So does the write-back after a token refresh. *)
Lemma refresh_and_persist_keeps_createdAt P k c (w : world) :
  keeps_field "createdAt" (docs w) (docs (snd (refresh_and_persist P k c w))).
Proof.
  unfold refresh_and_persist, refresh, doc_update, bind, log_call, lift,
    get_docs, put_docs, ret, raise.
  destruct (refresh_token c) as [|s|t]; simpl; [apply keeps_field_refl| |];
    (destruct (refresh_grant P _) as [r|e]; simpl; [|apply keeps_field_refl]);
    (destruct (snapshot k (docs w)); simpl; [|apply keeps_field_refl]);
    apply keeps_field_merge_at, refreshed_fields_createdAt.
Qed.

Lemma get_credentials_keeps_createdAt P now uid account_id (w : world) :
  keeps_field "createdAt" (docs w)
    (docs (snd (get_credentials P now uid account_id w))).
Proof.
  rewrite get_credentials_eq.
  destruct (credential_ref uid account_id (docs w)) as [k|];
    [|apply keeps_field_refl]. simpl.
  destruct (to_dict _ !! "refresh_token") as [rt|]; [|apply keeps_field_refl].
  destruct (negb _ || _); [|apply keeps_field_refl].
  pose proof (refresh_and_persist_keeps_createdAt P k
                (loaded_credentials (to_dict (snapshot k (docs w))) rt) w) as H.
  by destruct (refresh_and_persist P k _ w) as [[c'|e] w'].
Qed.

Lemma get_service_keeps_createdAt P now uid account_id (w : world) :
  keeps_field "createdAt" (docs w)
    (docs (snd (get_service P now uid account_id w))).
Proof.
  rewrite get_service_eq.
  destruct (_doc_ref_for_account uid account_id (docs w)) as [[k o]|];
    [|apply keeps_field_refl]. simpl.
  destruct (to_dict _ !! "refresh_token") as [rt|]; [|apply keeps_field_refl].
  destruct (negb _ || _); [|apply keeps_field_refl].
  pose proof (refresh_and_persist_keeps_createdAt P k
                (loaded_credentials (to_dict (snapshot k (docs w))) rt) w) as H.
  by destruct (refresh_and_persist P k _ w) as [[c'|e] w'].
Qed.

(** Asking for an authorization URL with an explicit account id stamps the
    record with the time of the call, whether or not it was stamped
    before. *)
Lemma get_auth_url_explicit_stamps P now uid uuid a (w : world) :
  str_truthy a = true →
  ∃ w', get_auth_url P now uid uuid (Some a) w
        = (Return (mkAuthUrl (authorization_url P (encode_state uid a)) a), w')
        ∧ to_dict (snapshot (uid, a) (docs w')) !! "createdAt"
          = Some (VTime now).
Proof.
  intros Ha. destruct a as [|x a']; [done|].
  unfold get_auth_url, _ensure_account_doc, doc_set_merge, bind, get_docs,
    put_docs, ret. simpl.
  eexists. split; [reflexivity|]. simpl.
  rewrite snapshot_set_merge_eq. simpl.
  apply lookup_union_Some_l. by simplify_map_eq.
Qed.

(** C6, evaluated where the code departs from it.  The record of account
    [a1] was created in 2020.  Asking again for an authorization URL for
    [a1] in 2024 rewrites its [createdAt] to the time of the call. *)
Theorem explicit_reconnect_overwrites_createdAt :
  let w := Sample.world_of [(("u1", "a1")%string, Sample.connected)] in
  Sample.connected !! "createdAt" = Some (VTime Sample.t_old)
  ∧ Sample.t_old ≠ Sample.t0
  ∧ ∃ w', get_auth_url Sample.granting Sample.t0 "u1" "fresh"
            (Some "a1"%string) w
          = (Return (mkAuthUrl
                       "https://accounts.example/auth?state=u1:a1" "a1"), w')
          ∧ to_dict (snapshot ("u1", "a1")%string (docs w')) !! "createdAt"
            = Some (VTime Sample.t0).
Proof.
  split_and!; [vm_compute; reflexivity|discriminate|].
  eexists. split; vm_compute; reflexivity.
Qed.

(* ===================================================================== *)
(** ** Parsing the state                                                  *)
(* ===================================================================== *)

(** Against C7 as stated: a state with two delimiters is not one pair, yet
    [handle_callback] does not call it malformed.  It takes the text after
    the first delimiter as the account id, exchanges the code and writes the
    record. *)
Lemma two_delimiters_are_accepted :
  let r := handle_callback Sample.granting "u1:a1:x" "code"
             (Sample.world_of []) in
  ¬ one_pair "u1:a1:x"
  ∧ fst r = Return (Some "a1:x"%string, None)
  ∧ calls (snd r)
    = [FetchToken "code" "u1:a1:x";
       GetProfile (mkCredentials (VStr "a1") (VStr "r1") (Some Sample.t1))]
  ∧ to_dict (snapshot ("u1", "a1:x")%string (docs (snd r))) !! "refresh_token"
    = Some (VStr "r1").
Proof.
  split_and!; try (vm_compute; reflexivity).
  intros (a & b & Hs). vm_compute in Hs. discriminate.
Qed.

Lemma one_pair_contains state : one_pair state → contains colon state = true.
Proof.
  intros (a & b & Hs). apply cut_first_contains.
  rewrite (split_pair_cut_first _ _ _ _ Hs). eauto.
Qed.

(** Once the state is parsed, the first thing either path does is the code
    exchange. *)
Lemma handle_callback_exchanges P state code (w : world) :
  contains colon state = true →
  ∃ l, calls (snd (handle_callback P state code w))
       = calls w ++ FetchToken code state :: l.
Proof.
  intros Hc. destruct (proj1 (cut_first_contains _ _) Hc) as [[a b] Hcut].
  unfold handle_callback, try_except, bind, unpack2, split1, log_call, lift,
    ret, raise, doc_get, doc_set_merge, get_docs, put_docs.
  rewrite Hc, Hcut. simpl.
  destruct (fetch_token P code state) as [c|e]; simpl; [|by eexists].
  destruct (truthy (refresh_token c)); simpl; [|by eexists].
  destruct (truthy (py_or _ _)); simpl; [|by eexists].
  destruct (get_profile P c) as [email|e]; simpl;
    rewrite <- app_assoc; by eexists.
Qed.

Lemma save_refresh_token_exchanges P code state (w : world) :
  one_pair state →
  ∃ l, calls (snd (save_refresh_token P code state w))
       = calls w ++ FetchToken code state :: l.
Proof.
  intros (a & b & Hs).
  unfold save_refresh_token, bind, unpack2, log_call, lift, ret, raise,
    doc_get, doc_set_merge, get_docs, put_docs.
  rewrite Hs. simpl.
  destruct (fetch_token P code state) as [c|e]; simpl; [|by eexists].
  destruct (truthy (py_or _ _)); simpl; [|by eexists].
  destruct (get_profile P c) as [email|e]; simpl;
    rewrite <- app_assoc; by eexists.
Qed.

Lemma calls_grew_neq (w w' : world) c l :
  calls w' = calls w ++ c :: l → w' ≠ w.
Proof.
  intros Hc ->. apply (f_equal (@List.length call)) in Hc.
  rewrite length_app in Hc. simpl in Hc. lia.
Qed.

(** C7, amended.  [handle_callback] answers "Invalid state format" exactly
    when the state contains no delimiter, and then neither exchanges the code
    nor writes; a state with a delimiter is cut at the first one, and the
    exchange is attempted.  [save_refresh_token] raises [ValueError] before
    doing anything exactly when the state does not split into two parts. *)
Theorem malformed_state_is_rejected_before_exchange
    P state code (w : world) :
  (fst (handle_callback P state code w) = Return (None, Some MalformedState)
   ↔ contains colon state = false)
  ∧ (contains colon state = false →
     handle_callback P state code w
     = (Return (None, Some MalformedState), w))
  ∧ (∀ a b, cut_first colon state = Some (a, b) →
     (∃ l, calls (snd (handle_callback P state code w))
           = calls w ++ FetchToken code state :: l)
     ∧ (completed (fst (handle_callback P state code w)) = true →
        fst (handle_callback P state code w) = Return (Some b, None)
        ∧ is_Some (snapshot (a, b)
                     (docs (snd (handle_callback P state code w))))))
  ∧ ((∃ msg, save_refresh_token P code state w = (Raise (ValueError msg), w))
     ↔ ¬ one_pair state).
Proof.
  split_and!.
  - split.
    + destruct (contains colon state) eqn:Hc; [|done].
      destruct (proj1 (cut_first_contains _ _) Hc) as [[a b] Hcut].
      unfold handle_callback, try_except, bind, unpack2, split1, log_call,
        lift, ret, raise, doc_get, doc_set_merge, get_docs, put_docs.
      rewrite Hc, Hcut. simpl.
      destruct (fetch_token P code state) as [c|e]; simpl;
        [|intros H; vm_compute in H; discriminate].
      destruct (truthy (refresh_token c)); simpl; [|discriminate].
      destruct (truthy (py_or _ _)); simpl; [|discriminate].
      destruct (get_profile P c) as [email|e]; simpl;
        [discriminate|intros H; vm_compute in H; discriminate].
    + intros Hc. unfold handle_callback, try_except, ret. by rewrite Hc.
  - intros Hc. unfold handle_callback, try_except, ret. by rewrite Hc.
  - intros a b Hcut.
    assert (Hc : contains colon state = true)
      by (apply cut_first_contains; eauto).
    split; [by apply handle_callback_exchanges|].
    unfold handle_callback, try_except, bind, unpack2, split1, log_call,
      lift, ret, raise, doc_get, doc_set_merge, get_docs, put_docs.
    rewrite Hc, Hcut. simpl.
    destruct (fetch_token P code state) as [c|e]; simpl; [|done].
    destruct (truthy (refresh_token c)); simpl; [|done].
    destruct (truthy (py_or _ _)); simpl; [|done].
    destruct (get_profile P c) as [email|e]; simpl; [|done].
    intros _. split; [done|]. rewrite snapshot_set_merge_eq. eauto.
  - split.
    + intros [msg Hr] Hone.
      destruct (save_refresh_token_exchanges P code state w Hone) as [l Hl].
      rewrite Hr in Hl. simpl in Hl. by eapply calls_grew_neq.
    + intros Hone.
      unfold save_refresh_token, bind, unpack2, raise.
      destruct (split colon state) as [|a [|b [|x l]]] eqn:Hs; simpl;
        [by eexists..| |by eexists].
      destruct Hone. by exists a, b.
Qed.

Lemma malformed_state_is_rejected_before_exchange_witness :
  contains colon "u1a1" = false
  ∧ handle_callback Sample.reconsent "u1a1" "code"
      (Sample.world_of Sample.shared_id)
    = (Return (None, Some MalformedState), Sample.world_of Sample.shared_id)
  ∧ ∃ msg, save_refresh_token Sample.granting "code" "u1:a1:x"
             (Sample.world_of Sample.shared_id)
           = (Raise (ValueError msg), Sample.world_of Sample.shared_id).
Proof.
  pose proof (malformed_state_is_rejected_before_exchange Sample.reconsent
                "u1a1" "code" (Sample.world_of Sample.shared_id))
    as (_ & Hreject & _).
  pose proof (malformed_state_is_rejected_before_exchange Sample.granting
                "u1:a1:x" "code" (Sample.world_of Sample.shared_id))
    as (_ & _ & _ & Hsave).
  split_and!; [reflexivity|exact (Hreject eq_refl)|].
  apply Hsave. intros (a & b & Hs). vm_compute in Hs. discriminate.
Defined.

(* ===================================================================== *)
(** ** Beginning a connection                                             *)
(* ===================================================================== *)

Lemma snapshot_foreign uid a st :
  Forall (λ e, owner_of (fst e) ≠ uid) st → snapshot (uid, a) st = None.
Proof.
  induction 1 as [|[k0 d0] r Hk _ IH]; simpl; [done|].
  rewrite decide_False; [done|]. intros ->. by apply Hk.
Qed.

Lemma limit1_of_elem uid (st : store) e :
  e ∈ st → owner_of (fst e) = uid → ∃ e', limit1 uid st = [e'].
Proof.
  intros He Ho. destruct (limit1 uid st) as [|e' rest] eqn:Hl.
  - apply limit1_nil in Hl. rewrite Forall_forall in Hl. by destruct (Hl e He).
  - destruct (limit1_sound _ _ _ _ Hl) as (-> & _). eauto.
Qed.

Lemma limit1_elem uid (st : store) e rest :
  limit1 uid st = e :: rest → e ∈ st.
Proof.
  induction st as [|e0 r IH]; simpl; [done|].
  destruct (decide (owner_of (fst e0) = uid)).
  - intros [= <- <-]. left.
  - intros Hl. right. auto.
Qed.

Lemma given_truthy a : str_truthy a = true → given (Some a) = Some a.
Proof. by destruct a. Qed.

(** C8.  With no account id given: when the owner has no document, the
    drawn id is new under the owner, a placeholder holding only [createdAt]
    (so no [refresh_token]) is created there, nothing else changes, and the
    answer carries that id and the URL built for the state made of the owner
    id, one [":"] and the id; when the owner has a document, the id of the
    owner's first document is answered, with the URL for the state made the
    same way, and the store is left as it is. *)
Theorem begin_connection_creates_or_reuses P now uid uuid (w : world) :
  (Forall (λ e, owner_of (fst e) ≠ uid) (docs w) →
   ∃ w', get_auth_url P now uid uuid None w
         = (Return (mkAuthUrl (authorization_url P (uid +:+ ":" +:+ uuid))
                      uuid), w')
         ∧ snapshot (uid, uuid) (docs w) = None
         ∧ (∃ d, snapshot (uid, uuid) (docs w') = Some d
                 ∧ d !! "createdAt" = Some (VTime now)
                 ∧ d !! "refresh_token" = None
                 ∧ d = {[ "createdAt" := VTime now ]})
         ∧ (∀ k, k ≠ (uid, uuid) → snapshot k (docs w') = snapshot k (docs w))
         ∧ calls w' = calls w)
  ∧ (ids_nonempty (docs w) →
     ∀ e, e ∈ docs w → owner_of (fst e) = uid →
     ∃ a, get_auth_url P now uid uuid None w
          = (Return (mkAuthUrl (authorization_url P (uid +:+ ":" +:+ a)) a), w)
          ∧ is_Some (snapshot (uid, a) (docs w)))
  ∧ (∀ r w', get_auth_url P now uid uuid None w = (Return r, w') →
            ∃ state, url r = authorization_url P state
                     ∧ state = uid +:+ ":" +:+ accountId r
                     ∧ (contains colon uid = false →
                        split1 colon state = [uid; accountId r])).
Proof.
  split_and!.
  - intros Hnone.
    pose proof (snapshot_foreign uid uuid _ Hnone) as Hfresh.
    apply limit1_nil in Hnone.
    exists (mkWorld (set_merge (uid, uuid) {[ "createdAt" := VTime now ]}
                       (docs w)) (calls w)).
    split_and!.
    + unfold get_auth_url, _get_existing_account_id, _ensure_account_doc,
        doc_set_merge, bind, get_docs, put_docs, ret, encode_state. simpl.
      by rewrite Hnone.
    + done.
    + eexists. simpl. rewrite snapshot_set_merge_eq, Hfresh. simpl.
      rewrite (right_id_L ∅ (∪)). split_and!; [done| | |done];
        by simplify_map_eq.
    + intros k Hk. simpl. by apply snapshot_set_merge_ne.
    + done.
  - intros Hids e He Ho.
    destruct (limit1_of_elem _ _ _ He Ho) as [e' Hl].
    destruct (limit1_sound _ _ _ _ Hl) as (_ & Ho' & Hs').
    pose proof (limit1_elem _ _ _ _ Hl) as He'.
    unfold ids_nonempty in Hids. rewrite Forall_forall in Hids.
    pose proof (given_truthy _ (Hids e' He')) as Hg.
    exists (id_of (fst e')). split.
    + unfold get_auth_url, _get_existing_account_id, bind, get_docs, ret,
        encode_state.
      simpl. rewrite Hl, Hg. by destruct w.
    + destruct e' as [[o a] d]. simpl in *. subst o. eauto.
  - intros r w'.
    unfold get_auth_url, _ensure_account_doc, doc_set_merge, bind, get_docs,
      put_docs, ret. simpl.
    destruct (given (_get_existing_account_id uid (docs w))) as [a|];
      simpl; intros [= <- _]; simpl;
      (eexists; split_and!; [reflexivity|reflexivity|]);
      intros Hc; unfold split1;
      by rewrite (encode_state_cut_first _ _ Hc).
Qed.

Lemma begin_connection_creates_or_reuses_witness :
  (∃ w', get_auth_url Sample.granting Sample.t0 "u1" "fresh-id" None
           (Sample.world_of Sample.shared_id)
         = (Return (mkAuthUrl
                      (authorization_url Sample.granting "u1:fresh-id")
                      "fresh-id"), w')
         ∧ snapshot ("u1", "fresh-id")%string Sample.shared_id = None
         ∧ (∃ d, snapshot ("u1", "fresh-id")%string (docs w') = Some d
                 ∧ d !! "createdAt" = Some (VTime Sample.t0)
                 ∧ d !! "refresh_token" = None
                 ∧ d = {[ "createdAt" := VTime Sample.t0 ]})
         ∧ (∀ k, k ≠ ("u1", "fresh-id")%string →
                 snapshot k (docs w') = snapshot k Sample.shared_id)
         ∧ calls w' = [])
  ∧ (∃ a, get_auth_url Sample.granting Sample.t0 "u3" "fresh-id" None
            (Sample.world_of Sample.shared_id)
          = (Return (mkAuthUrl
                       (authorization_url Sample.granting ("u3:" +:+ a)) a),
             Sample.world_of Sample.shared_id)
          ∧ is_Some (snapshot ("u3", a) Sample.shared_id))
  ∧ (∃ state, url (mkAuthUrl (authorization_url Sample.granting "u3:a1") "a1")
              = authorization_url Sample.granting state
              ∧ state = "u3:a1"%string
              ∧ split1 colon state = ["u3"; "a1"]%string).
Proof.
  split_and!.
  - apply (proj1 (begin_connection_creates_or_reuses Sample.granting Sample.t0
                    "u1" "fresh-id" (Sample.world_of Sample.shared_id))).
    repeat constructor; discriminate.
  - apply (proj1 (proj2 (begin_connection_creates_or_reuses Sample.granting
                           Sample.t0 "u3" "fresh-id"
                           (Sample.world_of Sample.shared_id)))
             ltac:(repeat constructor)
             (("u3", "a1")%string, Sample.placeholder)).
    + right. left.
    + reflexivity.
  - destruct (proj2 (proj2 (begin_connection_creates_or_reuses Sample.granting
                              Sample.t0 "u3" "fresh-id"
                              (Sample.world_of Sample.shared_id)))
                _ _ eq_refl) as (state & Hu & Hs & Hd).
    exists state. split_and!; [exact Hu|exact Hs|exact (Hd eq_refl)].
Defined.

(* ===================================================================== *)
(** ** The two completion paths                                           *)
(* ===================================================================== *)







Ltac run_completion :=
  unfold save_refresh_token, handle_callback, try_except, bind, unpack2,
    split1, log_call, lift, ret, raise, doc_get, doc_set_merge, get_docs,
    put_docs.

(** The unbounded split after the first cut. *)
Lemma split_cut_first c s a b :
  cut_first c s = Some (a, b) → split c s = a :: split c b.
Proof.
  revert a. induction s as [|x r IH]; simpl; intros a; [done|].
  destruct (Ascii.eqb x c).
  - by intros [= <- <-].
  - destruct (cut_first c r) as [[h t]|]; [|done].
    intros [= <- <-]. by rewrite (IH h eq_refl).
Qed.




(* ===================================================================== *)
(** ** Completion: what is written, and when                              *)
(* ===================================================================== *)

(** A completion that does not succeed leaves every document as it was:
    the exchange and the profile request both come before the only write. *)
Theorem failed_completion_writes_nothing P state code (w : world) :
  (completed (fst (handle_callback P state code w)) = false →
   docs (snd (handle_callback P state code w)) = docs w)
  ∧ (saved (fst (save_refresh_token P code state w)) = false →
     docs (snd (save_refresh_token P code state w)) = docs w).
Proof.
  split.
  - run_completion.
    destruct (contains colon state); simpl; [|done].
    destruct (cut_first colon state) as [[a b]|]; simpl; [|done].
    destruct (fetch_token P code state) as [c|e]; simpl; [|done].
    destruct (truthy (refresh_token c)); simpl; [|done].
    destruct (truthy (py_or _ _)); simpl; [|done].
    destruct (get_profile P c) as [email|e]; simpl; done.
  - run_completion.
    destruct (split colon state) as [|a [|b [|x l]]]; simpl; try done.
    destruct (fetch_token P code state) as [c|e]; simpl; [|done].
    destruct (truthy (py_or _ _)); simpl; [|done].
    destruct (get_profile P c) as [email|e]; simpl; done.
Qed.

Lemma failed_completion_writes_nothing_witness :
  docs (snd (handle_callback Sample.reconsent "u1:a1" "code"
               (Sample.world_of Sample.shared_id))) = Sample.shared_id
  ∧ docs (snd (save_refresh_token Sample.reconsent "code" "u9:a9"
                 (Sample.world_of Sample.shared_id))) = Sample.shared_id.
Proof.
  split.
  - apply (proj1 (failed_completion_writes_nothing Sample.reconsent "u1:a1"
                    "code" (Sample.world_of Sample.shared_id))).
    reflexivity.
  - apply (proj2 (failed_completion_writes_nothing Sample.reconsent "u9:a9"
                    "code" (Sample.world_of Sample.shared_id))).
    reflexivity.
Defined.

(** A completion touches no document but the one its state names: the
    path cut at the first delimiter for [handle_callback], the two parts of
    the state for [save_refresh_token]. *)
Theorem completion_writes_only_its_record P state code (w : world) k :
  (cut_first colon state ≠ Some k →
   snapshot k (docs (snd (handle_callback P state code w)))
   = snapshot k (docs w))
  ∧ (split colon state ≠ [fst k; snd k] →
     snapshot k (docs (snd (save_refresh_token P code state w)))
     = snapshot k (docs w)).
Proof.
  split.
  - intros Hk. run_completion.
    destruct (contains colon state); simpl; [|done].
    destruct (cut_first colon state) as [[a b]|]; simpl; [|done].
    destruct (fetch_token P code state) as [c|e]; simpl; [|done].
    destruct (truthy (refresh_token c)); simpl; [|done].
    destruct (truthy (py_or _ _)); simpl; [|done].
    destruct (get_profile P c) as [email|e]; simpl; [|done].
    apply snapshot_set_merge_ne. congruence.
  - intros Hk. run_completion.
    destruct (split colon state) as [|a [|b [|x l]]]; simpl; try done.
    destruct (fetch_token P code state) as [c|e]; simpl; [|done].
    destruct (truthy (py_or _ _)); simpl; [|done].
    destruct (get_profile P c) as [email|e]; simpl; [|done].
    apply snapshot_set_merge_ne. destruct k. simpl in *. congruence.
Qed.

Lemma completion_writes_only_its_record_witness :
  snapshot ("u2", "a1")%string
    (docs (snd (handle_callback Sample.granting "u3:a1" "code"
                  (Sample.world_of Sample.shared_id))))
  = Some Sample.connected
  ∧ snapshot ("u2", "a1")%string
      (docs (snd (save_refresh_token Sample.granting "code" "u3:a1"
                    (Sample.world_of Sample.shared_id))))
    = Some Sample.connected.
Proof.
  split.
  - apply (proj1 (completion_writes_only_its_record Sample.granting "u3:a1"
                    "code" (Sample.world_of Sample.shared_id)
                    ("u2", "a1")%string)).
    discriminate.
  - apply (proj2 (completion_writes_only_its_record Sample.granting "u3:a1"
                    "code" (Sample.world_of Sample.shared_id)
                    ("u2", "a1")%string)).
    discriminate.
Defined.

Lemma cut_first_encode c s a b :
  cut_first c s = Some (a, b) → s = a +:+ String c b.
Proof.
  revert a. induction s as [|x r IH]; simpl; intros a; [done|].
  destruct (Ascii.eqb_spec x c) as [->|Hx].
  - by intros [= <- <-].
  - destruct (cut_first c r) as [[h t]|]; [|done].
    intros [= <- <-]. by rewrite (IH h eq_refl).
Qed.

Lemma cut_first_head_clean c s a b :
  cut_first c s = Some (a, b) → contains c a = false.
Proof.
  revert a. induction s as [|x r IH]; simpl; intros a; [done|].
  destruct (Ascii.eqb x c) eqn:Hx.
  - by intros [= <- <-].
  - destruct (cut_first c r) as [[h t]|]; [|done].
    intros [= <- <-]. simpl. rewrite Hx. eauto.
Qed.

(** [email_address.split("@")[0]] is the text before the first ["@"], or
    the whole address when it holds none. *)
Lemma local_part_spec e :
  contains at_sign (local_part e) = false
  ∧ (local_part e = e ∨ ∃ rest, e = local_part e +:+ "@" +:+ rest).
Proof.
  unfold local_part.
  destruct (contains at_sign e) eqn:Hc.
  - apply cut_first_contains in Hc as [[h t] Hcut].
    rewrite (split_cut_first _ _ _ _ Hcut). split.
    + by eapply cut_first_head_clean.
    + right. exists t. by apply cut_first_encode.
  - rewrite (split_no_separator _ _ Hc). auto.
Qed.

(** What a successful callback leaves behind.  The record named by the
    state holds five fields from the exchange and the profile: the exchanged
    refresh token and access token, the expiry as [str()] renders it (the
    four letters [None] without one), the profile's email address, and as
    name the text of that address before its first ["@"] (the whole address
    without one, the empty text without an address); every other field is as
    it was.  The account is usable at once: [get_service] hands back the
    exchanged access token without a refresh and without a write. *)
Theorem completed_connection_is_usable P state code (w : world) a b :
  cut_first colon state = Some (a, b) →
  completed (fst (handle_callback P state code w)) = true →
  ∃ c email d,
    fetch_token P code state = Return c
    ∧ get_profile P c = Return email
    ∧ truthy (refresh_token c) = true
    ∧ fst (handle_callback P state code w) = Return (Some b, None)
    ∧ snapshot (a, b) (docs (snd (handle_callback P state code w))) = Some d
    ∧ d !! "refresh_token" = Some (refresh_token c)
    ∧ d !! "access_token" = Some (token c)
    ∧ d !! "expiry"
      = Some (VStr match expiry c with
                   | Some t => str_datetime t
                   | None => "None"
                   end)
    ∧ d !! "emailAddress"
      = Some match email with Some e => VStr e | None => VNone end
    ∧ (∃ n, d !! "name" = Some (VStr n)
            ∧ match email with
              | None | Some EmptyString => n = EmptyString
              | Some e => contains at_sign n = false
                          ∧ (n = e ∨ ∃ rest, e = n +:+ "@" +:+ rest)
              end)
    ∧ (∀ f, f ∉ ["refresh_token"; "access_token"; "expiry"; "emailAddress";
                 "name"]%string →
            d !! f = to_dict (snapshot (a, b) (docs w)) !! f)
    ∧ (str_truthy a = true → token c ≠ VNone →
       ∀ P' now,
         get_service P' now a b (snd (handle_callback P state code w))
         = (Return (build (mkCredentials (token c) (refresh_token c) None)),
            snd (handle_callback P state code w))).
Proof.
  intros Hcut.
  assert (Hc : contains colon state = true)
    by (apply cut_first_contains; eauto).
  destruct (handle_callback P state code w) as [r w'] eqn:Hrun.
  revert Hrun. run_completion. rewrite Hc, Hcut. simpl.
  destruct (fetch_token P code state) as [c|e]; simpl;
    [|by intros [= <- <-]].
  destruct (truthy (refresh_token c)) eqn:Hrt; simpl;
    [|by intros [= <- <-]].
  unfold py_or. rewrite Hrt. simpl. rewrite Hrt. simpl.
  destruct (get_profile P c) as [email|e] eqn:Hp; simpl;
    [|by intros [= <- <-]].
  intros [= <- <-] _. exists c, email. eexists. simpl.
  split_and!; [done..|apply snapshot_set_merge_eq| | | | | | |].
  - apply lookup_union_Some_l. unfold connection_fields. by simplify_map_eq.
  - apply lookup_union_Some_l. unfold connection_fields. by simplify_map_eq.
  - apply lookup_union_Some_l. unfold connection_fields.
    simplify_map_eq. by destruct (expiry c).
  - apply lookup_union_Some_l. unfold connection_fields.
    simplify_map_eq. by destruct email.
  - eexists. split.
    + apply lookup_union_Some_l. unfold connection_fields.
      by simplify_map_eq.
    + destruct email as [[|x e]|]; simpl; [done| |done].
      apply local_part_spec.
  - intros f Hf. rewrite !not_elem_of_cons in Hf.
    destruct Hf as (? & ? & ? & ? & ? & _).
    rewrite lookup_union_r; [done|]. unfold connection_fields.
    by simplify_map_eq.
  - intros Ha Htok P' now.
    rewrite get_service_eq. simpl.
    unfold _doc_ref_for_account. rewrite Ha.
    rewrite !snapshot_set_merge_eq. simpl.
    rewrite (lookup_union_Some_l _ _ _ (refresh_token c))
      by (unfold connection_fields; by simplify_map_eq).
    rewrite loaded_needs_refresh.
    assert (Hget : py_get (connection_fields (refresh_token c) c
                             (expiry_str (expiry c)) email
                           ∪ to_dict (snapshot (a, b) (docs w)))
                     "access_token" = token c).
    { unfold py_get.
      rewrite (lookup_union_Some_l _ _ _ (token c));
        [done|unfold connection_fields; by simplify_map_eq]. }
    rewrite bool_decide_eq_false_2 by (by rewrite Hget).
    unfold loaded_credentials. by rewrite Hget.
Qed.

Lemma completed_connection_is_usable_witness :
  let r := handle_callback Sample.granting "u3:a1" "code"
             (Sample.world_of Sample.shared_id) in
  ∃ c email d,
    fetch_token Sample.granting "code" "u3:a1" = Return c
    ∧ get_profile Sample.granting c = Return email
    ∧ truthy (refresh_token c) = true
    ∧ fst r = Return (Some "a1"%string, None)
    ∧ snapshot ("u3", "a1")%string (docs (snd r)) = Some d
    ∧ d !! "refresh_token" = Some (refresh_token c)
    ∧ d !! "access_token" = Some (token c)
    ∧ d !! "expiry"
      = Some (VStr match expiry c with
                   | Some t => str_datetime t
                   | None => "None"
                   end)
    ∧ d !! "emailAddress"
      = Some match email with Some e => VStr e | None => VNone end
    ∧ (∃ n, d !! "name" = Some (VStr n)
            ∧ match email with
              | None | Some EmptyString => n = EmptyString
              | Some e => contains at_sign n = false
                          ∧ (n = e ∨ ∃ rest, e = n +:+ "@" +:+ rest)
              end)
    ∧ (∀ f, f ∉ ["refresh_token"; "access_token"; "expiry"; "emailAddress";
                 "name"]%string →
            d !! f = to_dict (snapshot ("u3", "a1")%string Sample.shared_id)
                       !! f)
    ∧ (str_truthy "u3" = true → token c ≠ VNone →
       ∀ P' now,
         get_service P' now "u3" "a1" (snd r)
         = (Return (build (mkCredentials (token c) (refresh_token c) None)),
            snd r)).
Proof.
  apply (completed_connection_is_usable Sample.granting "u3:a1" "code"
           (Sample.world_of Sample.shared_id) "u3" "a1" eq_refl eq_refl).
Defined.

(* ===================================================================== *)
(** ** The state string, there and back                                   *)
(* ===================================================================== *)

(** The state built for an owner and an account id is read back as that
    owner and that id by the callback, as long as the owner id holds no
    delimiter; [save_refresh_token] also needs the account id free of it.
    Conversely, whatever the callback reads out of a state spells that state
    when encoded again. *)
Theorem state_round_trip uid account_id :
  (contains colon uid = false →
   split1 colon (encode_state uid account_id) = [uid; account_id]
   ∧ (contains colon account_id = false →
      split colon (encode_state uid account_id) = [uid; account_id]))
  ∧ (∀ state, cut_first colon state = Some (uid, account_id) →
              encode_state uid account_id = state
              ∧ contains colon uid = false).
Proof.
  split.
  - intros Hu. split.
    + unfold split1. by rewrite encode_state_cut_first.
    + intros Ha. unfold encode_state.
      induction uid as [|x r IH].
      * change (split colon (String colon account_id) = [""; account_id]).
        simpl. by rewrite split_no_separator.
      * change (String x r +:+ ":" +:+ account_id)
          with (String x (r +:+ ":" +:+ account_id)).
        simpl in *. destruct (Ascii.eqb x colon); [done|].
        by rewrite IH.
  - intros state Hcut. split.
    + symmetry. by apply cut_first_encode.
    + by eapply cut_first_head_clean.
Qed.

Lemma state_round_trip_witness :
  (split1 colon (encode_state "u1" "a:1") = ["u1"; "a:1"]%string
   ∧ (contains colon "a1" = false →
      split colon (encode_state "u1" "a1") = ["u1"; "a1"]%string))
  ∧ encode_state "u1" "a1:x" = "u1:a1:x"%string.
Proof.
  split.
  - split.
    + apply (proj1 (state_round_trip "u1" "a:1")). reflexivity.
    + apply (proj1 (state_round_trip "u1" "a1")). reflexivity.
  - apply (proj2 (state_round_trip "u1" "a1:x") "u1:a1:x"%string).
    reflexivity.
Defined.

(* ===================================================================== *)
(** ** The whole connection flow                                          *)
(* ===================================================================== *)

(** From nothing to a connected account.  An owner without documents asks
    for an authorization URL, and the provider sends the browser back with
    the state of that URL: the callback answers the account id the first
    step drew, makes exactly the exchange and the profile request, and the
    record holds the placeholder's [createdAt] under the exchanged tokens and
    the profile. *)
Theorem connection_flow P now uid uuid code (w : world) c email :
  Forall (λ e, owner_of (fst e) ≠ uid) (docs w) →
  contains colon uid = false →
  fetch_token P code (encode_state uid uuid) = Return c →
  truthy (refresh_token c) = true →
  get_profile P c = Return email →
  let r1 := get_auth_url P now uid uuid None w in
  let state := encode_state uid uuid in
  let r2 := handle_callback P state code (snd r1) in
  fst r1 = Return (mkAuthUrl (authorization_url P state) uuid)
  ∧ fst r2 = Return (Some uuid, None)
  ∧ calls (snd r2) = calls w ++ [FetchToken code state; GetProfile c]
  ∧ snapshot (uid, uuid) (docs (snd r2))
    = Some (connection_fields (refresh_token c) c (expiry_str (expiry c))
              email
            ∪ {[ "createdAt" := VTime now ]})
  ∧ (∀ k, k ≠ (uid, uuid) →
          snapshot k (docs (snd r2)) = snapshot k (docs w)).
Proof.
  intros Hnone Hu Hf Hrt Hp.
  pose proof (snapshot_foreign uid uuid _ Hnone) as Hfresh.
  apply limit1_nil in Hnone.
  pose proof (encode_state_cut_first uid uuid Hu) as Hcut.
  assert (Hc : contains colon (encode_state uid uuid) = true)
    by (apply cut_first_contains; eauto).
  unfold get_auth_url, _get_existing_account_id, _ensure_account_doc.
  run_completion. simpl. rewrite Hnone. simpl. rewrite Hc, Hcut. simpl.
  rewrite Hf. simpl. rewrite Hrt. simpl. unfold py_or. rewrite Hrt. simpl.
  rewrite Hrt. simpl. rewrite Hp. simpl.
  split_and!; [done|done|by rewrite <- app_assoc| |].
  - rewrite !snapshot_set_merge_eq, Hfresh. simpl.
    by rewrite (right_id_L ∅ (∪)).
  - intros k Hk. by rewrite !snapshot_set_merge_ne.
Qed.

Lemma connection_flow_witness :
  let w := Sample.world_of Sample.shared_id in
  let c := mkCredentials (VStr "a1") (VStr "r1") (Some Sample.t1) in
  let r1 := get_auth_url Sample.granting Sample.t0 "u1" "id-1" None w in
  let state := encode_state "u1" "id-1" in
  let r2 := handle_callback Sample.granting state "code" (snd r1) in
  fst r1 = Return (mkAuthUrl (authorization_url Sample.granting state) "id-1")
  ∧ fst r2 = Return (Some "id-1"%string, None)
  ∧ calls (snd r2) = [FetchToken "code" state; GetProfile c]
  ∧ snapshot ("u1", "id-1")%string (docs (snd r2))
    = Some (connection_fields (VStr "r1") c (expiry_str (Some Sample.t1))
              (Some "x@y.com"%string)
            ∪ {[ "createdAt" := VTime Sample.t0 ]})
  ∧ (∀ k, k ≠ ("u1", "id-1")%string →
          snapshot k (docs (snd r2)) = snapshot k Sample.shared_id).
Proof.
  apply (connection_flow Sample.granting Sample.t0 "u1" "id-1" "code"
           (Sample.world_of Sample.shared_id)
           (mkCredentials (VStr "a1") (VStr "r1") (Some Sample.t1))
           (Some "x@y.com"%string)).
  - repeat constructor; discriminate.
  - reflexivity.
  - reflexivity.
  - reflexivity.
  - reflexivity.
Defined.

(* ===================================================================== *)
(** ** Refreshing: once, and what a failure leaves                        *)
(* ===================================================================== *)

Lemma scan_merge_at a k (f : doc) (st : store) :
  scan a (merge_at k f st) = scan a st.
Proof.
  induction st as [|[k0 d0] r IH]; simpl; [done|].
  destruct (decide (k0 = k)); simpl; [done|].
  by rewrite IH.
Qed.

Lemma limit1_merge_at uid k (f : doc) (st : store) :
  fst <$> limit1 uid (merge_at k f st) = fst <$> limit1 uid st.
Proof.
  induction st as [|[k0 d0] r IH]; simpl; [done|].
  destruct (decide (k0 = k)); simpl.
  - by destruct (decide (owner_of k0 = uid)).
  - destruct (decide (owner_of k0 = uid)); done.
Qed.

Lemma _doc_ref_for_account_merge_at uid a k (f : doc) (st : store) :
  _doc_ref_for_account uid a (merge_at k f st) = _doc_ref_for_account uid a st.
Proof.
  unfold _doc_ref_for_account. rewrite scan_merge_at.
  destruct (str_truthy uid); [|done].
  destruct (decide ((uid, a) = k)) as [<-|Hne].
  - rewrite snapshot_merge_at_eq. by destruct (snapshot (uid, a) st).
  - by rewrite snapshot_merge_at_ne.
Qed.

(** Merging fields into a document moves nothing: the same record is
    resolved before and after. *)
Lemma credential_ref_merge_at uid account_id k (f : doc) (st : store) :
  credential_ref uid account_id (merge_at k f st)
  = credential_ref uid account_id st.
Proof.
  unfold credential_ref.
  destruct (given account_id); [by rewrite _doc_ref_for_account_merge_at|].
  destruct (negb (str_truthy uid)); [done|].
  pose proof (limit1_merge_at uid k f st) as Hl.
  destruct (limit1 uid (merge_at k f st)), (limit1 uid st);
    simplify_eq/=; congruence.
Qed.

(** A record without access token is refreshed once: the first call sends
    exactly one refresh request and stores the new token; the next call, at
    any time and whatever the provider would say, sends nothing and hands
    back the stored token. *)
Theorem refresh_happens_once
    P1 P2 now1 now2 uid account_id (w : world) k d rt tok e :
  credential_ref uid account_id (docs w) = Some k →
  snapshot k (docs w) = Some d →
  d !! "refresh_token" = Some rt →
  rt ≠ VNone →
  py_get d "access_token" = VNone →
  refresh_grant P1 rt = Return (tok, e) →
  let r1 := get_credentials P1 now1 uid account_id w in
  let r2 := get_credentials P2 now2 uid account_id (snd r1) in
  fst r1 = Return (Some (mkCredentials (VStr tok) rt e))
  ∧ calls (snd r1) = calls w ++ [RefreshGrant rt]
  ∧ fst r2 = Return (Some (mkCredentials (VStr tok) rt None))
  ∧ snd r2 = snd r1.
Proof.
  intros Hk Hd Hrt Hne Htok Hgrant. simpl.
  assert (H1 : get_credentials P1 now1 uid account_id w
               = (Return (Some (mkCredentials (VStr tok) rt e)),
                  mkWorld (merge_at k (refreshed_fields
                                         (mkCredentials (VStr tok) rt e))
                             (docs w))
                    (calls w ++ [RefreshGrant rt]))).
  { rewrite get_credentials_eq, Hk, Hd. simpl. rewrite Hrt.
    rewrite loaded_needs_refresh, bool_decide_eq_true_2 by done.
    rewrite (refresh_and_persist_spec _ _ _ _ _ Hd) by done. simpl.
    by rewrite Hgrant. }
  rewrite H1. simpl. split_and!; [done|done| |].
  - rewrite get_credentials_eq. simpl.
    rewrite credential_ref_merge_at, Hk, snapshot_merge_at_eq, Hd. simpl.
    rewrite lookup_union_r
      by (unfold refreshed_fields; by simplify_map_eq).
    rewrite Hrt, loaded_needs_refresh.
    assert (Hget : py_get (refreshed_fields (mkCredentials (VStr tok) rt e) ∪ d)
                     "access_token" = VStr tok).
    { unfold py_get.
      rewrite (lookup_union_Some_l _ _ _ (VStr tok));
        [done|unfold refreshed_fields; by simplify_map_eq]. }
    rewrite bool_decide_eq_false_2 by (by rewrite Hget).
    unfold loaded_credentials. by rewrite Hget.
  - rewrite get_credentials_eq. simpl.
    rewrite credential_ref_merge_at, Hk, snapshot_merge_at_eq, Hd. simpl.
    rewrite lookup_union_r
      by (unfold refreshed_fields; by simplify_map_eq).
    rewrite Hrt, loaded_needs_refresh.
    assert (Hget : py_get (refreshed_fields (mkCredentials (VStr tok) rt e) ∪ d)
                     "access_token" = VStr tok).
    { unfold py_get.
      rewrite (lookup_union_Some_l _ _ _ (VStr tok));
        [done|unfold refreshed_fields; by simplify_map_eq]. }
    by rewrite bool_decide_eq_false_2 by (by rewrite Hget).
Qed.

Lemma refresh_happens_once_witness :
  let w := Sample.world_of Sample.shared_id in
  let r1 := get_credentials Sample.granting Sample.t0 "u3"
              (Some "a2"%string) w in
  let r2 := get_credentials Sample.reconsent Sample.t_old "u3"
              (Some "a2"%string) (snd r1) in
  fst r1 = Return (Some (mkCredentials (VStr "a2") (VStr "r0")
                           (Some Sample.t1)))
  ∧ calls (snd r1) = [RefreshGrant (VStr "r0")]
  ∧ fst r2 = Return (Some (mkCredentials (VStr "a2") (VStr "r0") None))
  ∧ snd r2 = snd r1.
Proof.
  apply (refresh_happens_once Sample.granting Sample.reconsent
           Sample.t0 Sample.t_old "u3" (Some "a2"%string)
           (Sample.world_of Sample.shared_id)
           ("u3", "a2")%string Sample.tokenless (VStr "r0") "a2"
           (Some Sample.t1));
    try reflexivity.
  discriminate.
Defined.

(** When the provider rejects the refresh, the exception leaves
    [get_credentials] and [get_service] as it is, after the one request, and
    the record stays in the store untouched: it is neither deleted nor
    marked. *)
Theorem failed_refresh_keeps_the_record
    P now uid (w : world) k d rt x :
  snapshot k (docs w) = Some d →
  d !! "refresh_token" = Some rt →
  rt ≠ VNone →
  py_get d "access_token" = VNone →
  refresh_grant P rt = Raise x →
  (∀ account_id,
     credential_ref uid account_id (docs w) = Some k →
     get_credentials P now uid account_id w
     = (Raise x, mkWorld (docs w) (calls w ++ [RefreshGrant rt])))
  ∧ (∀ account_id o,
       _doc_ref_for_account uid account_id (docs w) = Some (k, o) →
       get_service P now uid account_id w
       = (Raise x, mkWorld (docs w) (calls w ++ [RefreshGrant rt]))).
Proof.
  intros Hd Hrt Hne Htok Hgrant. split.
  - intros account_id Hk.
    rewrite get_credentials_eq, Hk, Hd. simpl. rewrite Hrt.
    rewrite loaded_needs_refresh, bool_decide_eq_true_2 by done.
    rewrite (refresh_and_persist_spec _ _ _ _ _ Hd) by done. simpl.
    by rewrite Hgrant.
  - intros account_id o Hk.
    rewrite get_service_eq, Hk, Hd. simpl. rewrite Hrt.
    rewrite loaded_needs_refresh, bool_decide_eq_true_2 by done.
    rewrite (refresh_and_persist_spec _ _ _ _ _ Hd) by done. simpl.
    by rewrite Hgrant.
Qed.

(* ===================================================================== *)
(** ** Whose documents an operation can reach                             *)
(* ===================================================================== *)

Lemma refresh_and_persist_frame P k c (w : world) k' :
  k' ≠ k →
  snapshot k' (docs (snd (refresh_and_persist P k c w)))
  = snapshot k' (docs w).
Proof.
  intros Hne.
  unfold refresh_and_persist, refresh, doc_update, bind, log_call, lift,
    get_docs, put_docs, ret, raise.
  destruct (refresh_token c) as [|s|t]; simpl; [done| |];
    (destruct (refresh_grant P _) as [r|e]; simpl; [|done]);
    (destruct (snapshot k (docs w)); simpl; [|done]);
    by apply snapshot_merge_at_ne.
Qed.

(** Without admin mode a disconnect never raises, never contacts the
    provider, leaves every document of every other owner in place, and
    changes nothing at all unless it reports success. *)
Theorem disconnect_without_admin_is_confined uid account_id (w : world) :
  ∃ res w',
    disconnect_account uid account_id false w = (Return res, w')
    ∧ (∀ k, owner_of k ≠ uid → snapshot k (docs w') = snapshot k (docs w))
    ∧ calls w' = calls w
    ∧ (success res = false → w' = w).
Proof.
  unfold disconnect_account, try_except, bind, get_docs, doc_delete, put_docs,
    ret. simpl.
  destruct (_doc_ref_for_account uid account_id (docs w)) as [[k o]|] eqn:Hres;
    simpl.
  - destruct (_doc_ref_for_account_sound _ _ _ _ _ Hres) as [-> _].
    destruct (String.eqb_spec o uid) as [->|Ho]; simpl.
    + eexists _, _. split; [done|]. simpl. split_and!; [|done|done].
      intros k Hk. apply snapshot_delete_ne. intros Heq.
      apply Hk. by rewrite Heq.
    + eexists _, _. split; [done|]. split_and!; try done; by destruct w.
  - eexists _, _. split; [done|]. split_and!; try done; by destruct w.
Qed.

(** Reading is not confined in that way: an explicit account id that the
    caller does not own is looked up among all owners, and the credentials
    of the first owner holding that id are handed out. *)
Theorem explicit_account_id_reads_across_owners
    P now uid account_id (w : world) k d rt :
  snapshot (uid, account_id) (docs w) = None →
  scan account_id (docs w) = Some k →
  snapshot k (docs w) = Some d →
  d !! "refresh_token" = Some rt →
  py_get d "access_token" ≠ VNone →
  owner_of k ≠ uid
  ∧ get_service P now uid account_id w
    = (Return (build (mkCredentials (py_get d "access_token") rt None)), w)
  ∧ (str_truthy account_id = true →
     get_credentials P now uid (Some account_id) w
     = (Return (Some (mkCredentials (py_get d "access_token") rt None)), w)).
Proof.
  intros Hnone Hscan Hd Hrt Htok.
  assert (Hres : _doc_ref_for_account uid account_id (docs w)
                 = Some (k, owner_of k)).
  { unfold _doc_ref_for_account. rewrite Hnone, Hscan.
    by destruct (str_truthy uid). }
  split_and!.
  - destruct (scan_sound _ _ _ Hscan) as [Hid _]. intros Ho.
    destruct k as [o a]. simpl in *. subst. congruence.
  - rewrite get_service_eq, Hres, Hd. simpl. rewrite Hrt.
    by rewrite loaded_needs_refresh, bool_decide_eq_false_2.
  - intros Ha. rewrite get_credentials_eq. unfold credential_ref.
    rewrite (given_truthy _ Ha), Hres. simpl. rewrite Hd. simpl. rewrite Hrt.
    by rewrite loaded_needs_refresh, bool_decide_eq_false_2.
Qed.

(** With no account id, [get_credentials] stays with the caller: it answers
    [None] for an empty uid or an owner without documents, and whatever it
    does it leaves the documents of every other owner as they were. *)
Theorem default_account_is_the_callers_own P now uid (w : world) :
  (str_truthy uid = false →
   get_credentials P now uid None w = (Return None, w))
  ∧ (Forall (λ e, owner_of (fst e) ≠ uid) (docs w) →
     get_credentials P now uid None w = (Return None, w))
  ∧ (∀ k, owner_of k ≠ uid →
          snapshot k (docs (snd (get_credentials P now uid None w)))
          = snapshot k (docs w)).
Proof.
  split_and!.
  - intros Hu. rewrite get_credentials_eq. unfold credential_ref. simpl.
    by rewrite Hu.
  - intros Hnone. apply limit1_nil in Hnone.
    rewrite get_credentials_eq. unfold credential_ref. simpl.
    rewrite Hnone. by destruct (str_truthy uid).
  - intros k Hk. rewrite get_credentials_eq. unfold credential_ref. simpl.
    destruct (negb (str_truthy uid)); [done|].
    destruct (limit1 uid (docs w)) as [|e rest] eqn:Hl; [done|].
    destruct (limit1_sound _ _ _ _ Hl) as (_ & Ho & _). simpl.
    destruct (to_dict _ !! "refresh_token") as [rt|]; [|done].
    destruct (negb _ || _); [|done].
    pose proof (refresh_and_persist_frame P (fst e)
                  (loaded_credentials (to_dict (snapshot (fst e) (docs w))) rt)
                  w k) as Hframe.
    destruct (refresh_and_persist P (fst e) _ w) as [[c'|x] w'];
      simpl in *; apply Hframe; congruence.
Qed.

Lemma failed_refresh_keeps_the_record_witness :
  let x := ProviderError "invalid_grant: Token has been expired or revoked." in
  let w' := mkWorld Sample.shared_id [RefreshGrant (VStr "r0")] in
  get_credentials Cases.revoked Sample.t0 "u3" (Some "a2"%string)
    (Sample.world_of Sample.shared_id) = (Raise x, w')
  ∧ get_service Cases.revoked Sample.t0 "u1" "a2"
      (Sample.world_of Sample.shared_id) = (Raise x, w').
Proof.
  pose proof (failed_refresh_keeps_the_record Cases.revoked Sample.t0 "u3"
                (Sample.world_of Sample.shared_id) ("u3", "a2")%string
                Sample.tokenless (VStr "r0")
                (ProviderError
                   "invalid_grant: Token has been expired or revoked.")
                eq_refl eq_refl ltac:(discriminate) eq_refl eq_refl)
    as [Hcreds _].
  pose proof (failed_refresh_keeps_the_record Cases.revoked Sample.t0 "u1"
                (Sample.world_of Sample.shared_id) ("u3", "a2")%string
                Sample.tokenless (VStr "r0")
                (ProviderError
                   "invalid_grant: Token has been expired or revoked.")
                eq_refl eq_refl ltac:(discriminate) eq_refl eq_refl)
    as [_ Hservice].
  split.
  - exact (Hcreds (Some "a2"%string) eq_refl).
  - exact (Hservice "a2"%string "u3"%string eq_refl).
Defined.

Lemma explicit_account_id_reads_across_owners_witness :
  let w := Sample.world_of Sample.shared_id in
  let c := mkCredentials (VStr "a0") (VStr "r0") None in
  "u2"%string ≠ "u1"%string
  ∧ get_service Sample.granting Sample.t0 "u1" "a1" w = (Return (build c), w)
  ∧ (str_truthy "a1" = true →
     get_credentials Sample.granting Sample.t0 "u1" (Some "a1"%string) w
     = (Return (Some c), w)).
Proof.
  apply (explicit_account_id_reads_across_owners Sample.granting Sample.t0
           "u1" "a1" (Sample.world_of Sample.shared_id)
           ("u2", "a1")%string Sample.connected (VStr "r0")
           eq_refl eq_refl eq_refl eq_refl).
  vm_compute. discriminate.
Defined.

Lemma default_account_is_the_callers_own_witness :
  let w := Sample.world_of Sample.shared_id in
  get_credentials Sample.granting Sample.t0 "" None w = (Return None, w)
  ∧ get_credentials Sample.granting Sample.t0 "u1" None w = (Return None, w)
  ∧ snapshot ("u2", "a1")%string
      (docs (snd (get_credentials Sample.granting Sample.t0 "u3" None w)))
    = Some Sample.connected.
Proof.
  split_and!.
  - apply (proj1 (default_account_is_the_callers_own Sample.granting
                    Sample.t0 "" (Sample.world_of Sample.shared_id))).
    reflexivity.
  - apply (proj1 (proj2 (default_account_is_the_callers_own Sample.granting
                           Sample.t0 "u1" (Sample.world_of Sample.shared_id)))).
    repeat constructor; discriminate.
  - apply (proj2 (proj2 (default_account_is_the_callers_own Sample.granting
                           Sample.t0 "u3" (Sample.world_of Sample.shared_id)))
             ("u2", "a1")%string).
    discriminate.
Defined.

(* ===================================================================== *)
(** ** Listing accounts                                                   *)
(* ===================================================================== *)

Lemma created_at_text_not_time v t : created_at_text v ≠ VTime t.
Proof. destruct v as [|s|t']; simpl; [done| |done]. by destruct (str_truthy s). Qed.

(** The listing has one entry per document of the collection group, in
    stream order and for every owner alike, carrying the owner and document
    id of the path.  An entry never holds a token or an expiry, and its
    [createdAt] is text or [None], never a raw timestamp.  Nothing is
    written and the provider is not contacted. *)
Theorem list_all_accounts_lists_every_owner (w : world) :
  ∃ l, list_all_accounts w = (Return l, w)
       ∧ (∀ i, (λ a, (a !! "uid", a !! "accountId")) <$> l !! i
               = (λ e, (Some (VStr (owner_of (fst e))),
                        Some (VStr (id_of (fst e))))) <$> docs w !! i)
       ∧ (∀ a, a ∈ l →
               a !! "refresh_token" = None
               ∧ a !! "access_token" = None
               ∧ a !! "expiry" = None
               ∧ ∀ t, a !! "createdAt" ≠ Some (VTime t)).
Proof.
  exists (map account_obj (docs w)). split_and!.
  - by destruct w.
  - intros i. rewrite list_lookup_fmap.
    destruct (docs w !! i) as [e|]; simpl; [|done].
    unfold account_obj. by simplify_map_eq.
  - intros a Ha. apply list_elem_of_fmap in Ha as (e & -> & _).
    unfold account_obj. split_and!; try by simplify_map_eq.
    intros t. simplify_map_eq. intros [= H].
    by apply created_at_text_not_time in H.
Qed.

(* ===================================================================== *)
(** ** Asking twice for an authorization URL                              *)
(* ===================================================================== *)

Lemma limit1_place_fresh uid a (d : doc) (st : store) :
  Forall (λ e, owner_of (fst e) ≠ uid) st →
  limit1 uid (place (uid, a) d st) = [((uid, a), d)].
Proof.
  induction 1 as [|[k0 d0] r Hk _ IH]; simpl.
  - by rewrite decide_True.
  - destruct (path_ltb (uid, a) k0); simpl.
    + by rewrite decide_True.
    + by rewrite decide_False.
Qed.

Lemma get_auth_url_default_eq P now uid uuid (w : world) :
  get_auth_url P now uid uuid None w =
  match given (_get_existing_account_id uid (docs w)) with
  | Some a =>
      (Return (mkAuthUrl (authorization_url P (encode_state uid a)) a), w)
  | None =>
      (Return (mkAuthUrl (authorization_url P (encode_state uid uuid)) uuid),
       mkWorld (set_merge (uid, uuid) {[ "createdAt" := VTime now ]} (docs w))
         (calls w))
  end.
Proof.
  unfold get_auth_url, _ensure_account_doc, doc_set_merge, bind, get_docs,
    put_docs, ret. simpl.
  by destruct (given (_get_existing_account_id uid (docs w))).
Qed.

(** With non-empty document ids, no existing id to reuse means that the
    owner has no document. *)
Lemma no_existing_account uid (st : store) :
  ids_nonempty st →
  given (_get_existing_account_id uid st) = None →
  Forall (λ e, owner_of (fst e) ≠ uid) st.
Proof.
  intros Hids Hg. apply limit1_nil. unfold _get_existing_account_id in Hg.
  destruct (limit1 uid st) as [|e rest] eqn:Hl; [done|].
  pose proof (limit1_elem _ _ _ _ Hl) as He.
  unfold ids_nonempty in Hids. rewrite Forall_forall in Hids.
  by rewrite (given_truthy _ (Hids e He)) in Hg.
Qed.

(** Asking again, with no account id, changes nothing: the second request
    answers the account id of the first, for the state made of the owner id
    and that id, and leaves the world of the first, so an owner ends up with
    one placeholder however often the URL is requested.  The two URLs are
    not compared: each is whatever the library builds for the state in that
    call. *)
Theorem auth_url_request_is_idempotent
    P now1 now2 uid uuid1 uuid2 (w : world) :
  ids_nonempty (docs w) →
  str_truthy uuid1 = true →
  let r1 := get_auth_url P now1 uid uuid1 None w in
  let r2 := get_auth_url P now2 uid uuid2 None (snd r1) in
  ∃ a u1 u2,
    fst r1 = Return (mkAuthUrl u1 a)
    ∧ fst r2 = Return (mkAuthUrl u2 a)
    ∧ snd r2 = snd r1
    ∧ is_Some (snapshot (uid, a) (docs (snd r1)))
    ∧ (a = uuid1
       ∨ is_Some (snapshot (uid, a) (docs w)) ∧ snd r1 = w).
Proof.
  intros Hids Huuid. cbn zeta. rewrite (get_auth_url_default_eq P now1).
  destruct (given (_get_existing_account_id uid (docs w))) as [a|] eqn:Hg;
    cbn [fst snd].
  - assert (Ha : is_Some (snapshot (uid, a) (docs w))).
    { unfold _get_existing_account_id in Hg.
      destruct (limit1 uid (docs w)) as [|[[o a'] d] rest] eqn:Hl; [done|].
      destruct (limit1_sound _ _ _ _ Hl) as (_ & Ho & Hs). simpl in *.
      subst o. destruct a' as [|x a']; [done|]. injection Hg as <-. eauto. }
    rewrite get_auth_url_default_eq, Hg. eexists a, _, _.
    split_and!; [done|done|done|done|by right].
  - pose proof (no_existing_account _ _ Hids Hg) as Hnone.
    assert (Hg' : given (_get_existing_account_id uid
                           (set_merge (uid, uuid1)
                              {[ "createdAt" := VTime now1 ]} (docs w)))
                  = Some uuid1).
    { unfold set_merge, _get_existing_account_id.
      rewrite (snapshot_foreign uid uuid1 _ Hnone).
      rewrite (limit1_place_fresh _ _ _ _ Hnone).
      by apply given_truthy. }
    rewrite get_auth_url_default_eq. cbn [docs]. rewrite Hg'.
    eexists uuid1, _, _. split_and!; [done|done|done| |by left].
    rewrite snapshot_set_merge_eq. eauto.
Qed.

Lemma auth_url_request_is_idempotent_witness :
  let r1 := get_auth_url Sample.granting Sample.t0 "u1" "id-1" None
              (Sample.world_of Sample.shared_id) in
  let r2 := get_auth_url Sample.granting Sample.t1 "u1" "id-2" None
              (snd r1) in
  ∃ a u1 u2,
    fst r1 = Return (mkAuthUrl u1 a)
    ∧ fst r2 = Return (mkAuthUrl u2 a)
    ∧ snd r2 = snd r1
    ∧ is_Some (snapshot ("u1", a) (docs (snd r1)))
    ∧ (a = "id-1"%string
       ∨ is_Some (snapshot ("u1", a) Sample.shared_id)
         ∧ snd r1 = Sample.world_of Sample.shared_id).
Proof.
  apply (auth_url_request_is_idempotent Sample.granting Sample.t0 Sample.t1
           "u1" "id-1" "id-2" (Sample.world_of Sample.shared_id)).
  - repeat constructor.
  - reflexivity.
Defined.

(* ===================================================================== *)
(** ** The resources                                                      *)
(* ===================================================================== *)

Lemma given_prefixed a s t : given (Some (String a s +:+ t)) = Some (String a s +:+ t).
Proof. reflexivity. Qed.

Lemma given_none_cases (o : option string) :
  given o = None ∨ ∃ s, o = Some s ∧ given o = Some s ∧ str_truthy s = true.
Proof. destruct o as [[|a s]|]; eauto. Qed.

(** The callback resource answers 200 or 400 and nothing else: no exception
    of the service reaches its own handler.  A missing or empty [code] or
    [state] is refused at once.  Every 400 leaves the documents as they
    were.  A 200 is the page carrying the account id read from the state,
    and the record it names then holds a refresh token. *)
Theorem callback_resource_answers P code state (w : world) :
  ∃ body status w',
    GmailCallback_get P code state w = (Return (body, status), w')
    ∧ (status = 200 ∨ status = 400)
    ∧ (status = 400 → docs w' = docs w)
    ∧ (given code = None ∨ given state = None →
       body = ErrorBody "Missing code or state parameter" ∧ w' = w)
    ∧ (status = 200 →
       ∃ c s a b d rt,
         code = Some c ∧ state = Some s
         ∧ cut_first colon s = Some (a, b)
         ∧ body = HtmlBody (connected_page (Some b))
         ∧ snapshot (a, b) (docs w') = Some d
         ∧ d !! "refresh_token" = Some rt
         ∧ truthy rt = true).
Proof.
  unfold GmailCallback_get.
  destruct (given_none_cases code) as [Hc|(c & -> & Hc & _)];
    [|destruct (given_none_cases state) as [Hs|(s & -> & Hs & _)]];
    rewrite ?Hc, ?Hs.
  - eexists _, _, _. split; [by destruct (given state)|].
    split_and!; eauto; try done; by destruct w.
  - eexists _, _, _. split; [reflexivity|].
    split_and!; eauto; try done; by destruct w.
  - unfold try_except at 1 2, bind at 1 2, split1, unpack2, ret, raise.
    destruct (cut_first colon s) as [[a b]|] eqn:Hcut; simpl.
    + assert (Hin : contains colon s = true)
        by (apply cut_first_contains; eauto).
      run_completion. rewrite Hin, Hcut. simpl.
      destruct (fetch_token P c s) as [cr|e]; simpl.
      * destruct (truthy (refresh_token cr)) eqn:Hrt; simpl.
        -- unfold py_or. rewrite Hrt. simpl. rewrite Hrt. simpl.
           destruct (get_profile P cr) as [email|e]; simpl.
           ++ eexists _, _, _. split; [reflexivity|].
              split_and!; [by left|done|by intros [|]|].
              intros _. eexists c, s, a, b, _, (refresh_token cr).
              split_and!; try done.
              ** apply snapshot_set_merge_eq.
              ** apply lookup_union_Some_l. unfold connection_fields.
                 by simplify_map_eq.
           ++ eexists _, _, _. split; [reflexivity|].
              split_and!; [by right|done|by intros [|]|done].
        -- eexists _, _, _. split; [reflexivity|].
           split_and!; [by right|done|by intros [|]|done].
      * eexists _, _, _. split; [reflexivity|].
        split_and!; [by right|done|by intros [|]|done].
    + eexists _, _, _. split; [reflexivity|].
      split_and!; [by right|done|by intros [|]|done].
Qed.

(** The two disconnect resources.  The ordinary one answers 200 or 400,
    changes nothing on a 400 (a token without uid included), and never
    touches a document of another owner than the token's.  The admin one,
    given a token with a uid, deletes whatever record the id resolves to,
    whoever owns it. *)
Theorem disconnect_resources account_id tok (w : world) :
  (∃ body status w',
     GmailDisconnect_post account_id tok w = (Return (body, status), w')
     ∧ (status = 200 ∨ status = 400)
     ∧ (status = 400 → w' = w)
     ∧ (token_uid tok = None → status = 400)
     ∧ (∀ uid, token_uid tok = Some uid →
        ∀ k, owner_of k ≠ uid → snapshot k (docs w') = snapshot k (docs w)))
  ∧ (∀ uid k o,
       token_uid tok = Some uid →
       _doc_ref_for_account uid account_id (docs w) = Some (k, o) →
       ∃ w', AdminGmailDisconnect_post account_id tok w
             = (Return (ResultBody (mkResult true None), 200), w')
             ∧ snapshot k (docs w') = None
             ∧ ∀ k', k' ≠ k → snapshot k' (docs w') = snapshot k' (docs w)).
Proof.
  unfold GmailDisconnect_post, AdminGmailDisconnect_post, disconnect_post,
    disconnect_account, try_except, bind, get_docs, doc_delete, put_docs, ret.
  split.
  - destruct (token_uid tok) as [uid|]; simpl.
    + destruct (_doc_ref_for_account uid account_id (docs w))
        as [[k o]|] eqn:Hres; simpl.
      * destruct (_doc_ref_for_account_sound _ _ _ _ _ Hres) as [-> _].
        destruct (String.eqb_spec o uid) as [->|Ho]; simpl.
        -- eexists _, _, _. split; [reflexivity|].
           split_and!; [by left|done|done|].
           intros ? [= <-] k Hk. simpl. apply snapshot_delete_ne.
           intros Heq. apply Hk. by rewrite Heq.
        -- eexists _, _, _. split; [reflexivity|].
           split_and!; [by right|by destruct w|done|done].
      * eexists _, _, _. split; [reflexivity|].
        split_and!; [by right|by destruct w|done|done].
    + eexists _, _, _. split; [reflexivity|].
      split_and!; [by right|by destruct w|done|done].
  - intros uid k o -> Hres. simpl. rewrite Hres. simpl.
    eexists. split; [reflexivity|]. simpl. split.
    + apply snapshot_delete_eq.
    + intros k' Hk'. by apply snapshot_delete_ne.
Qed.

Lemma disconnect_resources_witness :
  let tok : option token_data := Some {[ "uid" := "u1"%string ]} in
  let w := Sample.world_of Sample.shared_id in
  ∃ w', AdminGmailDisconnect_post "a1" tok w
        = (Return (ResultBody (mkResult true None), 200), w')
        ∧ snapshot ("u2", "a1")%string (docs w') = None
        ∧ ∀ k', k' ≠ ("u2", "a1")%string →
                snapshot k' (docs w') = snapshot k' (docs w).
Proof.
  apply (proj2 (disconnect_resources "a1" (Some {[ "uid" := "u1"%string ]})
                  (Sample.world_of Sample.shared_id))
           "u1"%string ("u2", "a1")%string "u2"%string);
    vm_compute; reflexivity.
Defined.

(** The authorization-URL resource never hands an account id to the
    service, so it leaves every stored [createdAt] alone.  Without a uid in
    the token it answers 400 and changes nothing; with one it answers 200
    with the id of a record that exists under that uid afterwards. *)
Theorem auth_url_resource P now uuid tok (w : world) :
  ids_nonempty (docs w) →
  ∃ body status w',
    GmailAuthUrl_get P now uuid tok w = (Return (body, status), w')
    ∧ keeps_field "createdAt" (docs w) (docs w')
    ∧ (token_uid tok = None → status = 400 ∧ w' = w)
    ∧ (∀ uid, token_uid tok = Some uid →
       status = 200
       ∧ ∃ a, body = AuthUrlBody
                       (mkAuthUrl (authorization_url P (encode_state uid a)) a)
              ∧ is_Some (snapshot (uid, a) (docs w'))).
Proof.
  intros Hids. unfold GmailAuthUrl_get, try_except, bind, ret.
  destruct (token_uid tok) as [uid|].
  - rewrite get_auth_url_default_eq.
    destruct (given (_get_existing_account_id uid (docs w))) as [a|] eqn:Hg.
    + eexists _, _, _. split; [reflexivity|].
      split_and!; [apply keeps_field_refl|done|].
      intros ? [= <-]. split; [done|]. exists a. split; [done|].
      unfold _get_existing_account_id in Hg.
      destruct (limit1 uid (docs w)) as [|e rest] eqn:Hl; [done|].
      destruct (limit1_sound _ _ _ _ Hl) as (_ & Ho & Hs).
      assert (a = id_of (fst e)) as ->
        by (destruct (id_of (fst e)); simpl in Hg; congruence).
      destruct e as [[o i] d]. simpl in *. subst o. eauto.
    + pose proof (no_existing_account _ _ Hids Hg) as Hnone.
      eexists _, _, _. split; [reflexivity|]. simpl.
      split_and!; [|done|].
      * intros k d v Hs Hv. exists d. split; [|done].
        rewrite snapshot_set_merge_ne; [done|].
        intros ->. by rewrite (snapshot_foreign _ _ _ Hnone) in Hs.
      * intros ? [= <-]. split; [done|]. exists uuid. split; [done|].
        rewrite snapshot_set_merge_eq. eauto.
  - eexists _, _, _. split; [reflexivity|].
    split_and!; [apply keeps_field_refl|by destruct w|done].
Qed.

Lemma auth_url_resource_witness :
  let tok : option token_data := Some {[ "uid" := "u3"%string ]} in
  let w := Sample.world_of Sample.shared_id in
  ∃ body status w',
    GmailAuthUrl_get Sample.granting Sample.t0 "id-1" tok w
    = (Return (body, status), w')
    ∧ keeps_field "createdAt" (docs w) (docs w')
    ∧ (token_uid tok = None → status = 400 ∧ w' = w)
    ∧ (∀ uid, token_uid tok = Some uid →
       status = 200
       ∧ ∃ a, body = AuthUrlBody
                       (mkAuthUrl (authorization_url Sample.granting
                                     (encode_state uid a)) a)
              ∧ is_Some (snapshot (uid, a) (docs w'))).
Proof.
  apply (auth_url_resource Sample.granting Sample.t0 "id-1"
           (Some {[ "uid" := "u3"%string ]})
           (Sample.world_of Sample.shared_id)).
  repeat constructor.
Defined.

(* ===================================================================== *)
(** ** Permissions                                                        *)
(* ===================================================================== *)

Lemma grant_all_lookup keys (p : perms) k :
  grant_all keys p !! k
  = if bool_decide (k ∈ keys) then Some true else p !! k.
Proof.
  unfold grant_all. revert p. induction keys as [|a r IH]; intros p; simpl.
  - done.
  - rewrite IH. destruct (decide (k = a)) as [->|Hne].
    + rewrite (bool_decide_eq_true_2 (a ∈ a :: r)) by left.
      case_bool_decide; [done|]. by rewrite lookup_insert_eq.
    + rewrite lookup_insert_ne by done.
      destruct (decide (k ∈ r)) as [Hin|Hnin].
      * rewrite !bool_decide_eq_true_2; [done|by right|done].
      * rewrite !bool_decide_eq_false_2; [done| |done].
        intros [?|?]%elem_of_cons; done.
Qed.

Lemma imply_lookup (acc : perms) av k :
  imply acc av !! k
  = if bool_decide (snd av = k) && granted acc (fst av) then Some true
    else acc !! k.
Proof.
  unfold imply. destruct (granted acc (fst av)); simpl.
  - case_bool_decide as Hk; simpl.
    + subst. by rewrite lookup_insert_eq.
    + by rewrite lookup_insert_ne.
  - by rewrite andb_false_r.
Qed.

Lemma implications_sources_untouched : sources_untouched implications.
Proof.
  assert (Hb : forallb (λ av, forallb (λ av' : string * string,
                                       negb (String.eqb (snd av) (fst av')))
                                implications) implications = true)
    by (vm_compute; reflexivity).
  unfold sources_untouched. apply Forall_forall. intros av Hin.
  apply Forall_forall. intros av' Hin'.
  rewrite forallb_forall in Hb.
  specialize (Hb av (proj1 (list_elem_of_In _ _) Hin)).
  rewrite forallb_forall in Hb.
  specialize (Hb av' (proj1 (list_elem_of_In _ _) Hin')).
  apply negb_true_iff in Hb. by apply String.eqb_neq in Hb.
Qed.

Lemma implied_ext imps (p p' : perms) k :
  Forall (λ av, granted p' (fst av) = granted p (fst av)) imps →
  implied imps p' k = implied imps p k.
Proof.
  unfold implied. induction 1 as [|av r Hav _ IH]; simpl; [done|].
  by rewrite Hav, IH.
Qed.

Lemma apply_implications_lookup_gen imps0 imps (p : perms) k :
  Forall (λ av, Forall (λ av', snd av ≠ fst av') imps0) imps →
  imps ⊆ imps0 →
  apply_implications imps p !! k
  = if implied imps p k then Some true else p !! k.
Proof.
  unfold apply_implications. revert p.
  induction imps as [|av r IH]; intros p Hun Hsub; simpl; [done|].
  inversion Hun as [|? ? Hav Hr]; subst.
  rewrite IH; [|done|set_solver].
  rewrite (implied_ext r p (imply p av)).
  - rewrite imply_lookup.
    destruct (bool_decide (snd av = k) && granted p (fst av)); simpl; [|done].
    by destruct (implied r p k).
  - apply Forall_forall. intros av' Hin. unfold granted.
    rewrite imply_lookup. rewrite Forall_forall in Hav.
    assert (Hne : snd av ≠ fst av') by (apply Hav, Hsub; by right).
    by rewrite bool_decide_eq_false_2.
Qed.

Lemma apply_implications_lookup (p : perms) k :
  apply_implications implications p !! k
  = if implied implications p k then Some true else p !! k.
Proof.
  apply (apply_implications_lookup_gen implications); [|done].
  apply implications_sources_untouched.
Qed.

Lemma implied_spec imps (p : perms) k :
  implied imps p k = true ↔ ∃ a, (a, k) ∈ imps ∧ granted p a = true.
Proof.
  unfold implied. rewrite existsb_exists. split.
  - intros ([a v] & Hin & Hb). apply andb_prop in Hb as [Hv Hg].
    apply bool_decide_eq_true in Hv. simpl in *. subst.
    exists a. split; [by apply list_elem_of_In|done].
  - intros (a & Hin & Hg). exists (a, k). split; [by apply list_elem_of_In|].
    simpl. by rewrite bool_decide_eq_true_2, Hg.
Qed.

Lemma set_permissions_some (p : perms) :
  set_permissions (Some p)
  = if decide (p = ∅) then p
    else if granted p "admin_flag" then grant_all permission_keys p
    else apply_implications implications p.
Proof. reflexivity. Qed.

Lemma granted_empty k : granted ∅ k = false.
Proof. unfold granted. by rewrite lookup_empty. Qed.

Lemma granted_grant_all keys (p : perms) k :
  granted (grant_all keys p) k = bool_decide (k ∈ keys) || granted p k.
Proof.
  unfold granted. rewrite grant_all_lookup. by case_bool_decide.
Qed.

Lemma granted_apply_implications (p : perms) k :
  granted (apply_implications implications p) k
  = implied implications p k || granted p k.
Proof.
  unfold granted. rewrite apply_implications_lookup.
  by destruct (implied implications p k).
Qed.

(** What [set_permissions] grants.  Nothing granted before is taken away.
    With [admin_flag] set, exactly the keys of the permission list are added
    to what was granted.  Without it, a view permission is added exactly
    when its admin permission was granted.  A user object without the
    attribute gets [admin_flag] false and nothing else. *)
Theorem set_permissions_grants (p : perms) k :
  (granted p k = true → granted (set_permissions (Some p)) k = true)
  ∧ (granted p "admin_flag" = true →
     (granted (set_permissions (Some p)) k = true
      ↔ granted p k = true ∨ k ∈ permission_keys))
  ∧ (granted p "admin_flag" = false →
     (granted (set_permissions (Some p)) k = true
      ↔ granted p k = true
        ∨ ∃ a, (a, k) ∈ implications ∧ granted p a = true))
  ∧ set_permissions None = {[ "admin_flag" := false ]}.
Proof.
  rewrite set_permissions_some. split_and!.
  - intros Hg. destruct (decide (p = ∅)) as [He|_]; [done|].
    destruct (granted p "admin_flag").
    + by rewrite granted_grant_all, Hg, orb_true_r.
    + by rewrite granted_apply_implications, Hg, orb_true_r.
  - intros Hadm. destruct (decide (p = ∅)) as [->|_].
    { by rewrite granted_empty in Hadm. }
    rewrite Hadm, granted_grant_all, orb_true_iff, bool_decide_eq_true.
    tauto.
  - intros Hadm. destruct (decide (p = ∅)) as [->|_].
    { rewrite granted_empty. split; [done|].
      intros [?|(a & _ & Ha)]; [done|]. by rewrite granted_empty in Ha. }
    rewrite Hadm, granted_apply_implications, orb_true_iff, implied_spec.
    tauto.
  - reflexivity.
Qed.

Lemma set_permissions_grants_witness :
  let p : perms := {[ "lists_admin_access" := true; "vqs_access" := false ]} in
  let q : perms := {[ "admin_flag" := true; "custom_access" := false ]} in
  granted (set_permissions (Some p)) "lists_admin_access" = true
  ∧ (granted (set_permissions (Some q)) "email_access" = true
     ↔ granted q "email_access" = true
       ∨ "email_access"%string ∈ permission_keys)
  ∧ (granted (set_permissions (Some p)) "lists_view_access" = true
     ↔ granted p "lists_view_access" = true
       ∨ ∃ a, (a, "lists_view_access"%string) ∈ implications
              ∧ granted p a = true).
Proof.
  split_and!.
  - apply (proj1 (set_permissions_grants
                    {[ "lists_admin_access" := true; "vqs_access" := false ]}
                    "lists_admin_access")).
    vm_compute; reflexivity.
  - apply (proj1 (proj2 (set_permissions_grants
                           {[ "admin_flag" := true; "custom_access" := false ]}
                           "email_access"))).
    vm_compute; reflexivity.
  - apply (proj1 (proj2 (proj2 (set_permissions_grants
                    {[ "lists_admin_access" := true; "vqs_access" := false ]}
                    "lists_view_access")))).
    vm_compute; reflexivity.
Defined.

Lemma implied_source_false (p : perms) av :
  av ∈ implications → implied implications p (fst av) = false.
Proof.
  intros Hin. apply not_true_is_false. intros (a & Ha & _)%implied_spec.
  pose proof implications_sources_untouched as Hun.
  unfold sources_untouched in Hun. rewrite Forall_forall in Hun.
  specialize (Hun _ Ha). rewrite Forall_forall in Hun.
  by apply (Hun _ Hin).
Qed.

Lemma implied_admin_flag_false (p : perms) :
  implied implications p "admin_flag" = false.
Proof.
  unfold implied. apply not_true_is_false.
  intros ([a v] & Hin & Hb)%existsb_exists.
  apply andb_prop in Hb as [Hv _]. apply bool_decide_eq_true in Hv.
  simpl in Hv. subst v.
  assert (Hb : forallb (λ av : string * string,
                          negb (String.eqb (snd av) "admin_flag"))
                 implications = true) by (vm_compute; reflexivity).
  rewrite forallb_forall in Hb. specialize (Hb _ Hin).
  apply negb_true_iff, String.eqb_neq in Hb. done.
Qed.

Lemma admin_flag_listed : "admin_flag"%string ∈ permission_keys.
Proof. unfold permission_keys. left. Qed.

Lemma set_permissions_empty : set_permissions (Some ∅) = ∅.
Proof. rewrite set_permissions_some. by rewrite decide_True. Qed.

Lemma set_permissions_admin (p : perms) :
  p ≠ ∅ → granted p "admin_flag" = true →
  set_permissions (Some p) = grant_all permission_keys p.
Proof.
  intros Hne Hadm. rewrite set_permissions_some.
  rewrite decide_False by exact Hne. rewrite Hadm. reflexivity.
Qed.

Lemma set_permissions_plain (p : perms) :
  p ≠ ∅ → granted p "admin_flag" = false →
  set_permissions (Some p) = apply_implications implications p.
Proof.
  intros Hne Hadm. rewrite set_permissions_some.
  rewrite decide_False by exact Hne. rewrite Hadm. reflexivity.
Qed.

Lemma set_permissions_none :
  set_permissions None = set_permissions (Some {[ "admin_flag" := false ]}).
Proof. reflexivity. Qed.

(** Running [set_permissions] again on its own result changes nothing: a
    user loaded twice has the permissions of a user loaded once. *)
Theorem set_permissions_idempotent attribute :
  set_permissions (Some (set_permissions attribute))
  = set_permissions attribute.
Proof.
  assert (Hsome : ∀ p : perms,
             set_permissions (Some (set_permissions (Some p)))
             = set_permissions (Some p)).
  { intros p. destruct (decide (p = ∅)) as [->|Hne].
    { rewrite set_permissions_empty. apply set_permissions_empty. }
    destruct (granted p "admin_flag") eqn:Hadm.
    - rewrite (set_permissions_admin p Hne Hadm).
      assert (Hr : grant_all permission_keys p !! "admin_flag" = Some true).
      { rewrite grant_all_lookup.
        rewrite bool_decide_eq_true_2 by apply admin_flag_listed.
        reflexivity. }
      rewrite set_permissions_admin.
      + apply map_eq. intros k. rewrite !grant_all_lookup.
        case_bool_decide; reflexivity.
      + intros He. rewrite He, lookup_empty in Hr. discriminate.
      + unfold granted. rewrite Hr. reflexivity.
    - rewrite (set_permissions_plain p Hne Hadm).
      assert (Hr : apply_implications implications p ≠ ∅).
      { apply map_choose in Hne as (k & v & Hk). intros He.
        pose proof (apply_implications_lookup p k) as Hl.
        rewrite He, lookup_empty, Hk in Hl.
        destruct (implied implications p k); discriminate. }
      rewrite set_permissions_plain.
      + apply map_eq. intros k.
        rewrite (apply_implications_lookup
                   (apply_implications implications p)).
        rewrite (implied_ext implications p).
        * rewrite apply_implications_lookup.
          destruct (implied implications p k); reflexivity.
        * apply Forall_forall. intros av Hin.
          rewrite granted_apply_implications, implied_source_false by exact Hin.
          reflexivity.
      + exact Hr.
      + rewrite granted_apply_implications, implied_admin_flag_false, Hadm.
        reflexivity. }
  destruct attribute as [p|]; [apply Hsome|].
  rewrite set_permissions_none. apply Hsome.
Qed.

(* ===================================================================== *)
(** ** The permission gate                                                *)
(* ===================================================================== *)

(** The wrapped method runs only behind a verified token that carries a
    [user_id], and, unless the key is [self_profile_access], only for a user
    whose permissions after [set_permissions] grant the key.  A token that
    fails verification does not give the 401 of a missing header: the
    decorator ends in a [TypeError]. *)
Theorem handler_runs_only_when_authorized {A}
    verify stored key hdr (f : token_data → option perms → A) x :
  (require_permission verify stored key hdr f = Passed x →
   ∃ h payload user_id,
     given hdr = Some h
     ∧ verify h = Return payload
     ∧ payload !! "user_id" = Some user_id
     ∧ (key = "self_profile_access"%string
        ∨ ∃ attribute,
            stored user_id = Return attribute
            ∧ granted (set_permissions attribute) key = true
            ∧ x = f payload (Some (set_permissions attribute))))
  ∧ (given hdr = None →
     require_permission verify stored key hdr f
     = Refused "Authorization header missing" 401)
  ∧ (∀ h e, given hdr = Some h → verify h = Raise e →
            require_permission verify stored key hdr f
            = TypeError "exceptions must derive from BaseException").
Proof.
  unfold require_permission, verify_token_and_get_doc. split_and!.
  - destruct (given hdr) as [h|]; [|done].
    destruct (verify h) as [payload|e] eqn:Hv; [|done].
    destruct (payload !! "user_id") as [user_id|] eqn:Hu; [|done].
    destruct (str_truthy user_id); simpl.
    + destruct (stored user_id) as [attribute|e] eqn:Hs; [|done].
      destruct (decide (key = "self_profile_access"%string)) as [->|Hk].
      * intros _. exists h, payload, user_id. eauto.
      * destruct (granted (set_permissions attribute) key) eqn:Hg; [|done].
        intros [= <-]. exists h, payload, user_id.
        split_and!; try done. right. eauto.
    + destruct (decide (key = "self_profile_access"%string)) as [->|Hk];
        [|done].
      intros _. exists h, payload, user_id. eauto.
  - by intros ->.
  - intros h e -> Hv. by rewrite Hv.
Qed.

Lemma handler_runs_only_when_authorized_witness :
  let verify : string → outcome token_data :=
    λ _, Raise (ValueError "Token expired") in
  let stored : string → outcome (option perms) := λ _, Return None in
  require_permission verify stored "email_access" None (λ _ _, tt)
  = Refused "Authorization header missing" 401
  ∧ require_permission verify stored "email_access" (Some "Bearer x"%string)
      (λ _ _, tt)
    = TypeError "exceptions must derive from BaseException".
Proof.
  split.
  - apply (proj1 (proj2 (handler_runs_only_when_authorized
                           (λ _, Raise (ValueError "Token expired"))
                           (λ _, Return None) "email_access" None
                           (λ _ _, tt) tt))).
    reflexivity.
  - apply (proj2 (proj2 (handler_runs_only_when_authorized
                           (λ _, Raise (ValueError "Token expired"))
                           (λ _, Return None) "email_access"
                           (Some "Bearer x"%string) (λ _ _, tt) tt))
             "Bearer x"%string (ValueError "Token expired"));
      reflexivity.
Defined.

(** A user whose stored [admin_flag] is set passes the gate for every key
    of the permission list, [email_access] and [users_admin_access] among
    them, whatever else is stored; a user with no stored permissions passes
    for [self_profile_access] only. *)
Theorem admin_flag_opens_every_listed_permission {A}
    verify stored key h payload user_id
    (f : token_data → option perms → A) :
  str_truthy h = true →
  verify h = Return payload →
  payload !! "user_id" = Some user_id →
  str_truthy user_id = true →
  (∀ p, stored user_id = Return (Some p) →
        granted p "admin_flag" = true →
        key ∈ permission_keys →
        require_permission verify stored key (Some h) f
        = Passed (f payload (Some (set_permissions (Some p)))))
  ∧ (stored user_id = Return None →
     require_permission verify stored key (Some h) f
     = if decide (key = "self_profile_access"%string)
       then Passed (f payload (Some {[ "admin_flag" := false ]}))
       else Refused "You do not have access.!" 403).
Proof.
  intros Hh Hv Hu Hid.
  unfold require_permission, verify_token_and_get_doc.
  rewrite (given_truthy _ Hh), Hv, Hu, Hid. cbn [negb]. split.
  - intros p -> Hadm Hkey. cbv zeta.
    destruct (decide (key = "self_profile_access"%string)); [reflexivity|].
    assert (Hg : granted (set_permissions (Some p)) key = true).
    { assert (Hne : p ≠ ∅).
      { intros ->. rewrite granted_empty in Hadm. discriminate. }
      rewrite (set_permissions_admin p Hne Hadm), granted_grant_all.
      rewrite bool_decide_eq_true_2 by exact Hkey. reflexivity. }
    rewrite Hg. reflexivity.
  - intros ->. cbv zeta.
    assert (Hnone : set_permissions None = {[ "admin_flag" := false ]})
      by reflexivity.
    rewrite Hnone.
    destruct (decide (key = "self_profile_access"%string)); [reflexivity|].
    assert (Hg : granted ({[ "admin_flag" := false ]} : perms) key = false).
    { unfold granted.
      destruct (decide (key = "admin_flag"%string)) as [->|Hk];
        by simplify_map_eq. }
    rewrite Hg. reflexivity.
Qed.

Lemma admin_flag_opens_every_listed_permission_witness :
  let payload : token_data := {[ "user_id" := "u1"%string ]} in
  let verify : string → outcome token_data := λ _, Return payload in
  let admin : perms := {[ "admin_flag" := true ]} in
  let stored : string → outcome (option perms) := λ _, Return (Some admin) in
  let blank : string → outcome (option perms) := λ _, Return None in
  require_permission verify stored "email_access" (Some "Bearer x"%string)
    (λ _ p, p)
  = Passed (Some (set_permissions (Some admin)))
  ∧ require_permission verify blank "email_access" (Some "Bearer x"%string)
      (λ _ p, p)
    = Refused "You do not have access.!" 403.
Proof.
  intros payload verify admin stored blank.
  assert (Hu : payload !! "user_id" = Some "u1"%string)
    by (vm_compute; reflexivity).
  assert (Hadm : granted admin "admin_flag" = true)
    by (vm_compute; reflexivity).
  split.
  - apply (proj1 (admin_flag_opens_every_listed_permission
                    verify stored "email_access" "Bearer x" payload "u1"
                    (λ _ p, p) eq_refl eq_refl Hu eq_refl)
             admin eq_refl Hadm).
    unfold permission_keys. repeat constructor.
  - apply (proj2 (admin_flag_opens_every_listed_permission
                    verify blank "email_access" "Bearer x" payload "u1"
                    (λ _ p, p) eq_refl eq_refl Hu eq_refl) eq_refl).
Defined.

(* ===================================================================== *)
(** ** Profile defaults                                                   *)
(* ===================================================================== *)

Lemma set_default_lookup (self : gmap string attr) fd k :
  set_default self fd !! k
  = match self !! k with
    | Some v => Some v
    | None => if decide (fst fd = k) then Some (snd fd) else None
    end.
Proof.
  unfold set_default. destruct (decide (fst fd = k)) as [<-|Hne].
  - destruct (self !! fst fd) as [v|] eqn:Hs; [by rewrite Hs|].
    by rewrite lookup_insert_eq.
  - destruct (self !! fst fd) as [v|] eqn:Hs.
    + by destruct (self !! k).
    + rewrite lookup_insert_ne by done. by destruct (self !! k).
Qed.

Lemma set_defaults_lookup l (self : gmap string attr) k :
  foldl set_default self l !! k
  = match self !! k with
    | Some v => Some v
    | None => lookup_default l k
    end.
Proof.
  revert self. induction l as [|fd r IH]; intros self; simpl.
  - by destruct (self !! k).
  - rewrite IH, set_default_lookup.
    destruct (self !! k); [done|]. by destruct (decide (fst fd = k)).
Qed.

Lemma lookup_default_None l k : k ∉ l.*1 → lookup_default l k = None.
Proof.
  induction l as [|fd r IH]; simpl; [done|].
  intros [Hne Hr]%not_elem_of_cons.
  rewrite decide_False by congruence. by apply IH.
Qed.

(** Filling in profile defaults only fills gaps: an attribute the object
    has keeps its value, each of the eight default fields that is missing
    gets its default, no other attribute appears, and a second pass changes
    nothing. *)
Theorem profile_defaults_fill_gaps_only (self : gmap string attr) :
  (∀ k v, self !! k = Some v →
          _set_default_profile_fields self !! k = Some v)
  ∧ (∀ k v, (k, v) ∈ default_fields → self !! k = None →
            _set_default_profile_fields self !! k = Some v)
  ∧ (∀ k, self !! k = None → k ∉ default_fields.*1 →
          _set_default_profile_fields self !! k = None)
  ∧ _set_default_profile_fields (_set_default_profile_fields self)
    = _set_default_profile_fields self.
Proof.
  unfold _set_default_profile_fields. split_and!.
  - intros k v Hk. by rewrite set_defaults_lookup, Hk.
  - intros k v Hin Hk. rewrite set_defaults_lookup, Hk.
    unfold default_fields in *.
    repeat (apply elem_of_cons in Hin as [[= -> ->]|Hin]; [reflexivity|]).
    by apply elem_of_nil in Hin.
  - intros k Hk Hnin. rewrite set_defaults_lookup, Hk.
    by apply lookup_default_None.
  - apply map_eq. intros k. rewrite !set_defaults_lookup.
    destruct (self !! k); [done|].
    by destruct (lookup_default default_fields k).
Qed.

Lemma profile_defaults_fill_gaps_only_witness :
  let self : gmap string attr :=
    {[ "displayName" := AStr "Ada"; "credits" := ANum 7 ]} in
  _set_default_profile_fields self !! "displayName" = Some (AStr "Ada")
  ∧ _set_default_profile_fields self !! "meteredBilling"
    = Some (ABilling 0 0)
  ∧ _set_default_profile_fields self !! "permissions" = None.
Proof.
  pose proof (profile_defaults_fill_gaps_only
                {[ "displayName" := AStr "Ada"; "credits" := ANum 7 ]})
    as (Hkeep & Hfill & Hnone & _).
  split_and!.
  - apply Hkeep. vm_compute. reflexivity.
  - apply Hfill; [|vm_compute; reflexivity].
    unfold default_fields. repeat first [left | right].
  - apply Hnone; [vm_compute; reflexivity|].
    unfold default_fields. simpl.
    repeat (apply not_elem_of_cons; split; [discriminate|]).
    apply not_elem_of_nil.
Defined.

(* ===================================================================== *)
(** ** Pages of users                                                     *)
(* ===================================================================== *)

(** For bounds in order and not negative, a slice is a window. *)
Lemma py_slice_window {A} (l : list A) start stop :
  0 ≤ start ≤ stop →
  py_slice l start stop
  = take (Z.to_nat (stop - start)) (drop (Z.to_nat start) l).
Proof.
  intros [H0 H1]. unfold py_slice, slice_bound.
  rewrite (proj2 (Z.ltb_ge start 0)), (proj2 (Z.ltb_ge stop 0)) by lia.
  destruct (Z.le_gt_cases (Z.of_nat (List.length l)) start) as [Hge|Hlt].
  - rewrite !drop_ge by lia. by rewrite !take_nil.
  - rewrite (Z.min_l start) by lia.
    destruct (Z.le_gt_cases stop (Z.of_nat (List.length l))) as [Hs|Hs].
    + by rewrite (Z.min_l stop) by lia.
    + rewrite (Z.min_r stop) by lia.
      rewrite !take_ge; [done| |]; rewrite length_drop; lia.
Qed.

Lemma ceil_div_spec n s q :
  0 < s → 0 ≤ n → (q < (n + s - 1) / s ↔ q * s < n).
Proof.
  intros Hs Hn. split.
  - intros Hq.
    assert (s * ((n + s - 1) / s) ≤ n + s - 1) by (apply Z.mul_div_le; lia).
    nia.
  - intros Hq.
    assert (q + 1 ≤ (n + s - 1) / s); [|lia].
    apply Z.div_le_lower_bound; lia.
Qed.

(** A page, for a positive page size.  The size is capped at 100 and the
    page number raised to 1; the page is the window of that size at that
    place, so it never holds more than the capped size; [has_next] says
    exactly that the page is not the last; and past the last page the list
    is empty. *)
Theorem users_page_is_a_window {V} (to_timestamp : V → V)
    (l : list (gmap string V)) (data : page_request) :
  let s := Z.min (default 20 (req_page_size data)) 100 in
  let p := Z.max (default 1 (req_page data)) 1 in
  let n := Z.of_nat (List.length l) in
  let total_pages := (n + s - 1) / s in
  1 ≤ s →
  get_users_with_pagination to_timestamp l data
  = UsersPage
      (map (filtered_user_data to_timestamp)
         (take (Z.to_nat s) (drop (Z.to_nat ((p - 1) * s)) l)))
      p s (p * s <? n) total_pages n
  ∧ Z.of_nat (List.length
                (answer_users (get_users_with_pagination to_timestamp l data)))
    ≤ s ≤ 100
  ∧ ((p * s <? n) = true ↔ p < total_pages)
  ∧ (total_pages < p →
     answer_users (get_users_with_pagination to_timestamp l data) = []).
Proof.
  intros s p n total_pages Hs.
  assert (Hp : 1 ≤ p) by (unfold p; lia).
  assert (Hrun : get_users_with_pagination to_timestamp l data
                 = UsersPage
                     (map (filtered_user_data to_timestamp)
                        (take (Z.to_nat s) (drop (Z.to_nat ((p - 1) * s)) l)))
                     p s (p * s <? n) total_pages n).
  { unfold get_users_with_pagination. fold s p n.
    rewrite (proj2 (Z.eqb_neq s 0)) by lia.
    rewrite py_slice_window by nia.
    replace ((p - 1) * s + s - (p - 1) * s) with s by lia.
    replace ((p - 1) * s + s) with (p * s) by lia. done. }
  assert (Hs100 : s ≤ 100) by (unfold s; lia).
  assert (Hn : 0 ≤ n) by (unfold n; lia).
  assert (Hlast : (p * s <? n) = true ↔ p < total_pages).
  { rewrite Z.ltb_lt. symmetry. apply ceil_div_spec; lia. }
  rewrite Hrun. cbn [answer_users]. split_and!.
  - reflexivity.
  - rewrite length_map, length_take. lia.
  - exact Hs100.
  - exact Hlast.
  - intros Hpast. rewrite drop_ge; [by rewrite take_nil|].
    assert (¬ (p - 1 < total_pages)) as Hnot by lia.
    unfold total_pages in Hnot. rewrite ceil_div_spec in Hnot by lia.
    unfold n in Hnot. lia.
Qed.

Lemma users_page_is_a_window_witness :
  let l : list (gmap string Z) :=
    [ {[ "id" := 1 ]}; {[ "id" := 2 ]}; {[ "id" := 3 ]} ] in
  let data := mkPageRequest (Some 2) (Some 2) in
  get_users_with_pagination (λ v, v) l data
  = UsersPage
      (map (filtered_user_data (λ v, v))
         (take (Z.to_nat 2) (drop (Z.to_nat ((2 - 1) * 2)) l)))
      2 2 (2 * 2 <? 3) 2 3
  ∧ Z.of_nat (List.length
                (answer_users (get_users_with_pagination (λ v, v) l data)))
    ≤ 2 ≤ 100
  ∧ ((2 * 2 <? 3) = true ↔ 2 < 2)
  ∧ (2 < 2 → answer_users (get_users_with_pagination (λ v, v) l data) = []).
Proof.
  apply (users_page_is_a_window (λ v : Z, v)
           [ {[ "id" := 1 ]}; {[ "id" := 2 ]}; {[ "id" := 3 ]} ]
           (mkPageRequest (Some 2) (Some 2))).
  vm_compute. discriminate.
Defined.

Lemma chunks_take {A} (l : list A) (s k : nat) :
  List.concat (map (λ i, take s (drop (i * s)%nat l)) (seq 0 k)) = take (k * s)%nat l.
Proof.
  induction k as [|k IH]; [by rewrite take_0|].
  rewrite seq_S, map_app, concat_app, IH. simpl.
  rewrite app_nil_r, take_take_drop. f_equal. lia.
Qed.

(** The pages tile the list: for a positive page size, the pages 1 to
    [total_pages], one after the other, are exactly the filtered documents,
    each once and in order. *)
Theorem users_pages_tile_the_list {V} (to_timestamp : V → V)
    (l : list (gmap string V)) (size : option Z) :
  let s := Z.min (default 20 size) 100 in
  let total_pages := (Z.of_nat (List.length l) + s - 1) / s in
  1 ≤ s →
  List.concat (map (λ i : nat,
                 answer_users
                   (get_users_with_pagination to_timestamp l
                      (mkPageRequest size (Some (Z.of_nat (S i))))))
            (seq 0 (Z.to_nat total_pages)))
  = map (filtered_user_data to_timestamp) l.
Proof.
  intros s total_pages Hs.
  assert (Hpage : ∀ i : nat,
             answer_users
               (get_users_with_pagination to_timestamp l
                  (mkPageRequest size (Some (Z.of_nat (S i)))))
             = map (filtered_user_data to_timestamp)
                 (take (Z.to_nat s) (drop (i * Z.to_nat s)%nat l))).
  { intros i. unfold get_users_with_pagination. simpl. fold s.
    rewrite (proj2 (Z.eqb_neq s 0)) by lia. simpl.
    rewrite py_slice_window by nia. f_equal. f_equal; [f_equal; nia|].
    f_equal. nia. }
  rewrite (map_ext _ _ Hpage).
  rewrite <- (map_map (λ i, take (Z.to_nat s) (drop (i * Z.to_nat s)%nat l))
                (map (filtered_user_data to_timestamp))).
  rewrite <- concat_map, chunks_take. f_equal.
  apply take_ge.
  assert (Hceil : ¬ (total_pages < total_pages)) by lia.
  unfold total_pages at 2 in Hceil.
  rewrite ceil_div_spec in Hceil by lia.
  assert (0 ≤ total_pages) by (apply Z.div_pos; lia). nia.
Qed.

Lemma users_pages_tile_the_list_witness :
  let l : list (gmap string Z) :=
    [ {[ "id" := 1 ]}; {[ "id" := 2 ]}; {[ "id" := 3 ]} ] in
  List.concat (map (λ i : nat,
                 answer_users
                   (get_users_with_pagination (λ v, v) l
                      (mkPageRequest (Some 2) (Some (Z.of_nat (S i))))))
            (seq 0 (Z.to_nat ((Z.of_nat (List.length l) + Z.min 2 100 - 1)
                              / Z.min 2 100))))
  = map (filtered_user_data (λ v, v)) l.
Proof.
  apply (users_pages_tile_the_list (λ v : Z, v)
           [ {[ "id" := 1 ]}; {[ "id" := 2 ]}; {[ "id" := 3 ]} ] (Some 2)).
  vm_compute. discriminate.
Defined.

(** At the edges of the request.  A page size of 0 ends in the error
    answer, which echoes the raw parameters.  With any other size, a page
    number of 1 or less gives the first page.  A negative page size passes the cap of 100
    untouched and, on the first page, cuts that many documents off the END
    of the list: everything before them is returned, however many. *)
Theorem users_page_edges {V} (to_timestamp : V → V)
    (l : list (gmap string V)) :
  (∀ page, get_users_with_pagination to_timestamp l
             (mkPageRequest (Some 0) page)
           = UsersError (default 1 page) 0)
  ∧ (∀ size page, page ≤ 1 → default 20 size ≠ 0 →
       get_users_with_pagination to_timestamp l
         (mkPageRequest size (Some page))
       = get_users_with_pagination to_timestamp l (mkPageRequest size None))
  ∧ (∀ size, size < 0 →
       answer_users (get_users_with_pagination to_timestamp l
                       (mkPageRequest (Some size) None))
       = map (filtered_user_data to_timestamp)
           (take (Z.to_nat (Z.of_nat (List.length l) + size)) l)).
Proof.
  split_and!.
  - intros page. reflexivity.
  - intros size page Hpage Hsize. unfold get_users_with_pagination. simpl.
    rewrite (proj2 (Z.eqb_neq (Z.min (default 20 size) 100) 0)) by lia.
    by rewrite (Z.max_r page 1) by lia.
  - intros size Hsize. unfold get_users_with_pagination. simpl.
    rewrite (Z.min_l size 100) by lia.
    rewrite (proj2 (Z.eqb_neq size 0)) by lia. simpl.
    unfold py_slice, slice_bound. simpl.
    replace ((Z.max 1 1 - 1) * size) with 0 by lia. rewrite Z.add_0_l.
    rewrite (proj2 (Z.ltb_lt size 0)) by lia.
    rewrite (Z.min_l 0) by lia. rewrite Z.sub_0_r. simpl. rewrite drop_0.
    f_equal. f_equal. lia.
Qed.

Lemma users_page_edges_witness :
  let l : list (gmap string Z) :=
    [ {[ "id" := 1 ]}; {[ "id" := 2 ]}; {[ "id" := 3 ]} ] in
  get_users_with_pagination (λ v, v) l (mkPageRequest None (Some (-4)))
  = get_users_with_pagination (λ v, v) l (mkPageRequest None None)
  ∧ answer_users (get_users_with_pagination (λ v, v) l
                    (mkPageRequest (Some (-1)) None))
    = map (filtered_user_data (λ v, v)) (take (Z.to_nat (3 + -1)) l).
Proof.
  pose proof (users_page_edges (λ v : Z, v)
                [ {[ "id" := 1 ]}; {[ "id" := 2 ]}; {[ "id" := 3 ]} ])
    as (_ & Hpage & Hneg).
  split.
  - apply Hpage; [lia|discriminate].
  - apply (Hneg (-1)). lia.
Defined.

Lemma foldl_alter_lookup {V} (f : V → V) (fields : list string)
    (m : gmap string V) k :
  NoDup fields →
  foldl (λ acc field, alter f field acc) m fields !! k
  = if bool_decide (k ∈ fields) then f <$> m !! k else m !! k.
Proof.
  intros Hnd. revert m. induction Hnd as [|a r Ha _ IH]; intros m; simpl.
  - done.
  - rewrite IH. destruct (decide (k = a)) as [->|Hne].
    + rewrite (bool_decide_eq_false_2 (a ∈ r)) by done.
      rewrite (bool_decide_eq_true_2 (a ∈ a :: r)) by left.
      by rewrite lookup_alter_eq.
    + rewrite lookup_alter_ne by done.
      destruct (decide (k ∈ r)) as [Hin|Hnin].
      * rewrite !bool_decide_eq_true_2; [done|by right|done].
      * rewrite !bool_decide_eq_false_2; [done| |done].
        intros [?|?]%elem_of_cons; done.
Qed.

Lemma timestamp_fields_allowed k : k ∈ timestamp_fields → k ∈ allowed_fields.
Proof.
  unfold timestamp_fields, allowed_fields. intros Hk.
  repeat (apply elem_of_cons in Hk as [->|Hk];
          [repeat first [left | right]|]).
  by apply elem_of_nil in Hk.
Qed.

(** What is handed out of a user document: nothing outside the ten allowed
    fields (so never, say, [permissions]); an allowed field as stored; and
    the three timestamp fields through the timestamp conversion. *)
Theorem only_allowed_fields_are_returned {V} (to_timestamp : V → V)
    (user_data : gmap string V) k :
  (k ∉ allowed_fields →
   filtered_user_data to_timestamp user_data !! k = None)
  ∧ (k ∈ allowed_fields → k ∉ timestamp_fields →
     filtered_user_data to_timestamp user_data !! k = user_data !! k)
  ∧ (k ∈ timestamp_fields →
     filtered_user_data to_timestamp user_data !! k
     = to_timestamp <$> user_data !! k).
Proof.
  assert (Hnd : NoDup timestamp_fields).
  { unfold timestamp_fields.
    repeat (apply NoDup_cons; split;
            [repeat (apply not_elem_of_cons; split; [discriminate|]);
             apply not_elem_of_nil|]).
    apply NoDup_nil_2. }
  unfold filtered_user_data. rewrite (foldl_alter_lookup _ _ _ _ Hnd).
  split_and!.
  - intros Hk.
    assert (Hf : filter (λ kv : string * V, fst kv ∈ allowed_fields) user_data
                 !! k = None).
    { apply map_lookup_filter_None. right. intros v _. exact Hk. }
    rewrite Hf. by case_bool_decide.
  - intros Hk Hts. rewrite bool_decide_eq_false_2 by done.
    destruct (user_data !! k) as [v|] eqn:Hv.
    + apply map_lookup_filter_Some. done.
    + apply map_lookup_filter_None. by left.
  - intros Hts. rewrite bool_decide_eq_true_2 by done.
    pose proof (timestamp_fields_allowed k Hts) as Hk. f_equal.
    destruct (user_data !! k) as [v|] eqn:Hv.
    + apply map_lookup_filter_Some. done.
    + apply map_lookup_filter_None. by left.
Qed.

Lemma only_allowed_fields_are_returned_witness :
  let user_data : gmap string Z :=
    {[ "email" := 1; "permissions" := 2; "createdAt" := 3 ]} in
  filtered_user_data (Z.mul 1000) user_data !! "permissions" = None
  ∧ filtered_user_data (Z.mul 1000) user_data !! "email"
    = user_data !! "email"
  ∧ filtered_user_data (Z.mul 1000) user_data !! "createdAt"
    = Z.mul 1000 <$> user_data !! "createdAt".
Proof.
  intros user_data. split_and!.
  - apply (proj1 (only_allowed_fields_are_returned (Z.mul 1000) user_data
                    "permissions")).
    unfold allowed_fields.
    repeat (apply not_elem_of_cons; split; [discriminate|]).
    apply not_elem_of_nil.
  - apply (proj1 (proj2 (only_allowed_fields_are_returned (Z.mul 1000)
                           user_data "email"))).
    + unfold allowed_fields. repeat first [left | right].
    + unfold timestamp_fields.
      repeat (apply not_elem_of_cons; split; [discriminate|]).
      apply not_elem_of_nil.
  - apply (proj2 (proj2 (only_allowed_fields_are_returned (Z.mul 1000)
                           user_data "createdAt"))).
    unfold timestamp_fields. left.
Defined.

(* ===================================================================== *)
(** ** Making values ready for JSON                                       *)
(* ===================================================================== *)

(** Induction on objects, through the lists and dictionaries inside. *)
Lemma pyobj_nested_ind (P : pyobj → Prop) :
  P ONone →
  (∀ s, P (OStr s)) →
  (∀ n, P (OInt n)) →
  (∀ bits, P (OFloat bits)) →
  (∀ b, P (OBool b)) →
  (∀ t, P (ODatetime t)) →
  (∀ days, P (ODate days)) →
  (∀ b, P (OBytes b)) →
  (∀ l, Forall P l → P (OList l)) →
  (∀ l, Forall P l → P (OTuple l)) →
  (∀ items, Forall (λ kv, P (snd kv)) items → P (ODict items)) →
  (∀ text, P (OOther text)) →
  ∀ obj, P obj.
Proof.
  intros HNone HStr HInt HFloat HBool HDt HDate HBytes HList HTuple HDict
    HOther.
  fix IH 1. intros [| | | | | | | |l|l|items|].
  - exact HNone.
  - apply HStr.
  - apply HInt.
  - apply HFloat.
  - apply HBool.
  - apply HDt.
  - apply HDate.
  - apply HBytes.
  - apply HList. induction l as [|x r IHl]; constructor; [apply IH|exact IHl].
  - apply HTuple. induction l as [|x r IHl]; constructor; [apply IH|exact IHl].
  - apply HDict.
    induction items as [|[k v] r IHl]; constructor; [apply IH|exact IHl].
  - apply HOther.
Qed.

Lemma forallb_Forall {A} (f : A → bool) (l : list A) :
  forallb f l = true ↔ Forall (λ x, f x = true) l.
Proof.
  induction l as [|x r IH]; simpl.
  - split; [constructor|done].
  - rewrite andb_true_iff, IH. split.
    + intros [? ?]. by constructor.
    + by inversion 1.
Qed.

Lemma Forall_map_fixed {A} (g : A → A) (l : list A) :
  Forall (λ x, g x = x) l → map g l = l.
Proof. induction 1 as [|x r Hx _ IH]; simpl; [done|]. by rewrite Hx, IH. Qed.

Lemma dict_set_Forall (Q : pykey * pyobj → Prop) k v d :
  Forall Q d → Q (k, v) → Forall Q (dict_set k v d).
Proof.
  intros Hd Hkv. induction Hd as [|[k' v'] r Hx Hr IH]; simpl.
  - by constructor.
  - destruct (decide (k' = k)) as [->|_]; by constructor.
Qed.

Lemma rebuilt_Forall (Q : pykey * pyobj → Prop) acc items :
  Forall Q acc →
  Forall (λ kv, Q (KStr (str_key (fst kv)), _json_safe (snd kv))) items →
  Forall Q (rebuilt acc items).
Proof.
  unfold rebuilt. intros Hacc Hitems. revert acc Hacc.
  induction Hitems as [|kv r Hkv _ IH]; intros acc Hacc; simpl; [done|].
  apply IH. by apply dict_set_Forall.
Qed.

Lemma dict_set_fresh k v d :
  k ∉ map fst d → dict_set k v d = d ++ [(k, v)].
Proof.
  induction d as [|[k' v'] r IH]; simpl; [done|].
  intros [Hne Hr]%not_elem_of_cons.
  rewrite decide_False by done. by rewrite IH.
Qed.

Lemma dict_set_keys k v d :
  map fst (dict_set k v d)
  = if bool_decide (k ∈ map fst d) then map fst d else map fst d ++ [k].
Proof.
  induction d as [|[k' v'] r IH]; simpl; [done|].
  destruct (decide (k' = k)) as [->|Hne]; simpl.
  - by rewrite bool_decide_eq_true_2 by left.
  - rewrite IH. destruct (decide (k ∈ map fst r)) as [Hin|Hnin].
    + rewrite !bool_decide_eq_true_2; [done|by right|done].
    + rewrite !bool_decide_eq_false_2; [done| |done].
      intros [?|?]%elem_of_cons; done.
Qed.

Lemma dict_set_NoDup k v d :
  NoDup (map fst d) → NoDup (map fst (dict_set k v d)).
Proof.
  intros Hnd. rewrite dict_set_keys. case_bool_decide as Hk; [done|].
  apply NoDup_app. split_and!; [done| |apply NoDup_singleton].
  intros x Hx [->|[]%elem_of_nil]%elem_of_cons. done.
Qed.

Lemma rebuilt_NoDup acc items :
  NoDup (map fst acc) → NoDup (map fst (rebuilt acc items)).
Proof.
  unfold rebuilt. revert acc.
  induction items as [|kv r IH]; intros acc Hacc; simpl; [done|].
  apply IH. by apply dict_set_NoDup.
Qed.

Lemma rebuilt_fixed acc items :
  NoDup (map fst (acc ++ items)) →
  Forall (λ kv, is_str_key (fst kv) = true ∧ _json_safe (snd kv) = snd kv)
    items →
  rebuilt acc items = acc ++ items.
Proof.
  unfold rebuilt. intros Hnd Hitems. revert acc Hnd.
  induction Hitems as [|[k v] r [Hk Hv] _ IH]; intros acc Hnd; simpl.
  - by rewrite app_nil_r.
  - destruct k as [s| | | |]; try done. simpl in *. rewrite Hv.
    rewrite dict_set_fresh.
    + rewrite IH; [by rewrite <- app_assoc|]. by rewrite <- app_assoc.
    + rewrite map_app in Hnd. simpl in Hnd.
      apply NoDup_app in Hnd as (_ & Hdisj & _).
      intros Hin. apply (Hdisj _ Hin). left.
Qed.

Lemma _json_safe_ready obj :
  json_ready (_json_safe obj) = true ∧ distinct_keys (_json_safe obj) = true.
Proof.
  induction obj as [ | | | | | | | |l IH|l IH|items IH| ]
    using pyobj_nested_ind; simpl; try done.
  - rewrite !forallb_Forall, !Forall_map. split.
    + eapply Forall_impl; [exact IH|]. by intros x [? ?].
    + eapply Forall_impl; [exact IH|]. by intros x [? ?].
  - rewrite !forallb_Forall, !Forall_map. split.
    + eapply Forall_impl; [exact IH|]. by intros x [? ?].
    + eapply Forall_impl; [exact IH|]. by intros x [? ?].
  - fold (rebuilt [] items). split.
    + rewrite forallb_Forall. apply rebuilt_Forall; [constructor|].
      eapply Forall_impl; [exact IH|]. intros kv [Hr _]. simpl. exact Hr.
    + rewrite andb_true_iff. split.
      * apply bool_decide_eq_true. apply rebuilt_NoDup. constructor.
      * rewrite forallb_Forall. apply rebuilt_Forall; [constructor|].
        eapply Forall_impl; [exact IH|]. by intros kv [_ Hd].
Qed.

Lemma _json_safe_fixed obj :
  json_ready obj = true → distinct_keys obj = true → _json_safe obj = obj.
Proof.
  induction obj as [ | | | | | | | |l IH|l IH|items IH| ]
    using pyobj_nested_ind; simpl; try done.
  - rewrite !forallb_Forall. intros Hr Hd. f_equal.
    apply Forall_map_fixed.
    rewrite Forall_forall in IH, Hr, Hd. apply Forall_forall.
    intros x Hx. by apply IH; [|apply Hr|apply Hd].
  - rewrite forallb_Forall, andb_true_iff, forallb_Forall.
    intros Hr [Hnd Hd]. apply bool_decide_eq_true in Hnd. f_equal.
    fold (rebuilt [] items). rewrite rebuilt_fixed; [done|done|].
    rewrite Forall_forall in IH, Hr, Hd. apply Forall_forall.
    intros kv Hkv. specialize (Hr _ Hkv). apply andb_true_iff in Hr as [? ?].
    split; [done|]. by apply IH; [|done|apply Hd].
Qed.

(** [_json_safe] turns any object into one the JSON encoder takes: no
    bytes, dates or tuples are left and every dictionary key is a string.
    An object that was ready already comes back unchanged, so a second pass
    changes nothing.  Lists and tuples keep their length and order, a tuple
    coming back as a list. *)
Theorem json_safe_makes_ready obj :
  json_ready (_json_safe obj) = true
  ∧ (json_ready obj = true → distinct_keys obj = true → _json_safe obj = obj)
  ∧ _json_safe (_json_safe obj) = _json_safe obj
  ∧ (∀ l, obj = OList l ∨ obj = OTuple l →
          _json_safe obj = OList (map _json_safe l)).
Proof.
  destruct (_json_safe_ready obj) as [Hr Hd]. split_and!.
  - exact Hr.
  - apply _json_safe_fixed.
  - by apply _json_safe_fixed.
  - by intros l [-> | ->].
Qed.

Lemma json_safe_makes_ready_witness :
  let obj := ODict [ (KStr "id", OStr "m1");
                     (KStr "labels", OList [OStr "INBOX"; OInt 3]) ] in
  _json_safe obj = obj
  ∧ _json_safe (OTuple [OBytes [Byte.x4d]; ODatetime 0])
    = OList (map _json_safe [OBytes [Byte.x4d]; ODatetime 0]).
Proof.
  split.
  - apply (proj1 (proj2 (json_safe_makes_ready
                           (ODict [ (KStr "id", OStr "m1");
                                    (KStr "labels",
                                     OList [OStr "INBOX"; OInt 3]) ]))));
      vm_compute; reflexivity.
  - apply (proj2 (proj2 (proj2 (json_safe_makes_ready
                                  (OTuple [OBytes [Byte.x4d]; ODatetime 0]))))).
    by right.
Defined.

(* ===================================================================== *)
(** ** The two ways to a credential, and failures of the provider         *)
(* ===================================================================== *)

(** [get_service] and [get_credentials] with an account id are one piece
    of code written twice, and they agree: they leave the same world, and
    where the one hands out credentials the other wraps the same in a
    service; where the one answers [None], the other raises "Gmail account
    not connected" and nothing has changed; an exception of the refresh
    leaves both alike. *)
Theorem service_and_credentials_agree P now uid account_id (w : world) :
  str_truthy account_id = true →
  let rc := get_credentials P now uid (Some account_id) w in
  let rs := get_service P now uid account_id w in
  snd rs = snd rc
  ∧ match fst rc with
    | Return (Some c) => fst rs = Return (build c)
    | Return None => fst rs = Raise (ValueError NotConnected) ∧ snd rc = w
    | Raise e => fst rs = Raise e
    end.
Proof.
  intros Ha. cbv zeta. rewrite get_credentials_eq, get_service_eq.
  unfold credential_ref. rewrite (given_truthy _ Ha).
  destruct (_doc_ref_for_account uid account_id (docs w)) as [[k o]|];
    simpl; [|done].
  destruct (to_dict (snapshot k (docs w)) !! "refresh_token") as [rt|];
    [|done].
  destruct (negb _ || _); [|done].
  by destruct (refresh_and_persist P k _ w) as [[c'|e] w'].
Qed.

Lemma service_and_credentials_agree_witness :
  let w := Sample.world_of Sample.shared_id in
  let rc := get_credentials Sample.granting Sample.t0 "u3"
              (Some "a2"%string) w in
  let rs := get_service Sample.granting Sample.t0 "u3" "a2" w in
  snd rs = snd rc
  ∧ match fst rc with
    | Return (Some c) => fst rs = Return (build c)
    | Return None => fst rs = Raise (ValueError NotConnected) ∧ snd rc = w
    | Raise e => fst rs = Raise e
    end.
Proof.
  apply (service_and_credentials_agree Sample.granting Sample.t0 "u3" "a2"
           (Sample.world_of Sample.shared_id)).
  reflexivity.
Defined.

(** What becomes of a failing provider.  [handle_callback] never raises.
    A failed exchange comes back as the error text of the pair, prefixed,
    after the one exchange call and with nothing written, where
    [save_refresh_token] lets the same exception through to its caller.  A
    failed profile request ends the callback in a prefixed error answer and
    [save_refresh_token] in an exception, both with nothing written. *)
Theorem provider_failures_become_error_answers P state code (w : world) :
  (∃ answer w', handle_callback P state code w = (Return answer, w'))
  ∧ (∀ e, contains colon state = true →
          fetch_token P code state = Raise e →
          handle_callback P state code w
          = (Return (None, Some ("Error in handle_callback: " +:+ exn_str e)),
             mkWorld (docs w) (calls w ++ [FetchToken code state])))
  ∧ (∀ e, one_pair state →
          fetch_token P code state = Raise e →
          save_refresh_token P code state w
          = (Raise e, mkWorld (docs w) (calls w ++ [FetchToken code state])))
  ∧ (∀ c e, contains colon state = true →
            fetch_token P code state = Return c →
            truthy (refresh_token c) = true →
            get_profile P c = Raise e →
            ∃ m w', handle_callback P state code w
                    = (Return (None, Some ("Error in handle_callback: " +:+ m)),
                       w')
                    ∧ docs w' = docs w)
  ∧ (∀ c e, one_pair state →
            fetch_token P code state = Return c →
            truthy (refresh_token c) = true →
            get_profile P c = Raise e →
            ∃ e' w', save_refresh_token P code state w = (Raise e', w')
                     ∧ docs w' = docs w).
Proof.
  split_and!.
  - run_completion.
    destruct (contains colon state); simpl; [|by eexists _, _].
    destruct (cut_first colon state) as [[a b]|]; simpl; [|by eexists _, _].
    destruct (fetch_token P code state) as [c|e]; simpl; [|by eexists _, _].
    destruct (truthy (refresh_token c)); simpl; [|by eexists _, _].
    destruct (truthy (py_or _ _)); simpl; [|by eexists _, _].
    destruct (get_profile P c) as [email|e]; simpl; by eexists _, _.
  - intros e Hc Hf.
    destruct (proj1 (cut_first_contains _ _) Hc) as [[a b] Hcut].
    run_completion. rewrite Hc, Hcut. simpl. by rewrite Hf.
  - intros e (a & b & Hs) Hf. run_completion. rewrite Hs. simpl.
    by rewrite Hf.
  - intros c e Hc Hf Hrt Hp.
    destruct (proj1 (cut_first_contains _ _) Hc) as [[a b] Hcut].
    run_completion. rewrite Hc, Hcut. simpl. rewrite Hf. simpl.
    rewrite Hrt. simpl. unfold py_or. rewrite Hrt. simpl. rewrite Hrt. simpl.
    rewrite Hp. simpl. by eexists _, _.
  - intros c e (a & b & Hs) Hf Hrt Hp. run_completion. rewrite Hs. simpl.
    rewrite Hf. simpl. unfold py_or. rewrite Hrt. simpl. rewrite Hrt. simpl.
    rewrite Hp. simpl. by eexists _, _.
Qed.

Lemma provider_failures_become_error_answers_witness :
  let w := Sample.world_of Sample.shared_id in
  (handle_callback Cases.revoked "u1:a1" "code" w
   = (Return (None, Some "Error in handle_callback: invalid_grant"%string),
      mkWorld Sample.shared_id [FetchToken "code" "u1:a1"])
   ∧ save_refresh_token Cases.revoked "code" "u1:a1" w
     = (Raise (ProviderError "invalid_grant"),
        mkWorld Sample.shared_id [FetchToken "code" "u1:a1"]))
  ∧ ((∃ m w', handle_callback Cases.unreachable "u1:a1" "code" w
              = (Return (None, Some ("Error in handle_callback: " +:+ m)), w')
              ∧ docs w' = Sample.shared_id)
     ∧ (∃ e' w', save_refresh_token Cases.unreachable "code" "u1:a1" w
                 = (Raise e', w')
                 ∧ docs w' = Sample.shared_id)).
Proof.
  pose proof (provider_failures_become_error_answers Cases.revoked "u1:a1"
                "code" (Sample.world_of Sample.shared_id))
    as (_ & Hcb & Hsave & _).
  pose proof (provider_failures_become_error_answers Cases.unreachable
                "u1:a1" "code" (Sample.world_of Sample.shared_id))
    as (_ & _ & _ & Hcb' & Hsave').
  split; split.
  - exact (Hcb (ProviderError "invalid_grant") eq_refl eq_refl).
  - apply (Hsave (ProviderError "invalid_grant")); [|reflexivity].
    by exists "u1"%string, "a1"%string.
  - exact (Hcb' _ (ProviderError "profile unavailable") eq_refl eq_refl
             eq_refl eq_refl).
  - apply (Hsave' _ (ProviderError "profile unavailable")
             ltac:(by exists "u1"%string, "a1"%string) eq_refl eq_refl
             eq_refl).
Defined.

Lemma callback_resource_answers_witness :
  ∃ body status w',
    GmailCallback_get Sample.granting (Some "code"%string) None
      (Sample.world_of Sample.shared_id)
    = (Return (body, status), w')
    ∧ (status = 200 ∨ status = 400)
    ∧ (status = 400 → docs w' = Sample.shared_id)
    ∧ (given (Some "code"%string) = None ∨ given None = None →
       body = ErrorBody "Missing code or state parameter"
       ∧ w' = Sample.world_of Sample.shared_id).
Proof.
  destruct (callback_resource_answers Sample.granting (Some "code"%string)
              None (Sample.world_of Sample.shared_id))
    as (body & status & w' & Hrun & Hst & H400 & Hmiss & _).
  exists body, status, w'. split_and!; try done.
Defined.

Lemma disconnect_without_admin_is_confined_witness :
  ∃ res w',
    disconnect_account "u1" "a1" false (Sample.world_of Sample.shared_id)
    = (Return res, w')
    ∧ (∀ k, owner_of k ≠ "u1"%string →
            snapshot k (docs w') = snapshot k Sample.shared_id)
    ∧ calls w' = []
    ∧ (success res = false → w' = Sample.world_of Sample.shared_id).
Proof.
  exact (disconnect_without_admin_is_confined "u1" "a1"
           (Sample.world_of Sample.shared_id)).
Defined.

Lemma list_all_accounts_lists_every_owner_witness :
  ∃ l, list_all_accounts (Sample.world_of Sample.shared_id)
       = (Return l, Sample.world_of Sample.shared_id)
       ∧ (∀ i, (λ a, (a !! "uid", a !! "accountId")) <$> l !! i
               = (λ e, (Some (VStr (owner_of (fst e))),
                        Some (VStr (id_of (fst e)))))
                 <$> Sample.shared_id !! i)
       ∧ (∀ a, a ∈ l →
               a !! "refresh_token" = None
               ∧ a !! "access_token" = None
               ∧ a !! "expiry" = None
               ∧ ∀ t, a !! "createdAt" ≠ Some (VTime t)).
Proof.
  exact (list_all_accounts_lists_every_owner
           (Sample.world_of Sample.shared_id)).
Defined.
